(** * OpenChat V2: message lifecycle and delivery

    A shallow embedding of the message store of
    [database_schema_v2_messages.sql] (TTL resolver, append, pin toggle,
    expiry sweep, retention setting) and of the client-side view handling of
    [RealtimeChat], [RealtimeMessagingService], [DirectChat] and
    [HybridMessagingService], with the properties of the written
    specification stated and settled against them. *)

From stdpp Require Import gmap strings list fin_maps pretty.
From Stdlib Require Import ZArith Ascii String Sorted.

Local Open Scope Z_scope.
Local Open Scope string_scope.

(** ** SQL values and errors *)

Module Sql.

(** Three-valued logic: [None] is SQL NULL. *)
Definition sql_not (a : option bool) : option bool := negb <$> a.

Definition sql_and (a b : option bool) : option bool :=
  match a, b with
  | Some false, _ | _, Some false => Some false
  | Some true, Some true => Some true
  | _, _ => None
  end.

Definition sql_or (a b : option bool) : option bool :=
  match a, b with
  | Some true, _ | _, Some true => Some true
  | Some false, Some false => Some false
  | _, _ => None
  end.

(** [a = b] and [a != b] on nullable values. *)
Definition sql_eq `{EqDecision A} (a b : option A) : option bool :=
  match a, b with
  | Some x, Some y => Some (bool_decide (x = y))
  | _, _ => None
  end.

Definition sql_neq `{EqDecision A} (a b : option A) : option bool :=
  sql_not (sql_eq a b).

(** A WHERE clause and a PL/pgSQL IF keep a row (take the branch) only when
    the condition is TRUE; a CHECK constraint rejects a row only when the
    condition is FALSE. *)
Definition holds (c : option bool) : bool :=
  match c with Some true => true | _ => false end.

Definition check_passes (c : option bool) : bool :=
  match c with Some false => false | _ => true end.

(** What aborts a statement. The transaction is rolled back, so an error
    carries no new database state. *)
Inductive sql_error : Type :=
  | RaiseException (msg : string)
  | CheckViolation (constraint : string)
  | UniqueViolation (constraint : string)
  | ForeignKeyViolation (constraint : string)
  | InvalidTextRepresentation (input : string).

Inductive result (A : Type) : Type :=
  | Ok (a : A)
  | Raise (e : sql_error).
Arguments Ok {A} a.
Arguments Raise {A} e.

#[global] Instance result_ret : MRet result := fun _ a => Ok a.
#[global] Instance result_bind : MBind result := fun _ _ f r =>
  match r with
  | Ok a => f a
  | Raise e => Raise e
  end.

Definition guard_ok (b : bool) (e : sql_error) : result unit :=
  if b then Ok tt else Raise e.

(** The cast [text::INTEGER] on the texts this code base writes into
    [setting_value] (the seeded '24' and the decimal form of a number): an
    optional sign and at least one decimal digit, within the 32-bit range;
    anything else is an error. *)
Definition digit_of (c : ascii) : option Z :=
  let n := Z.of_N (N_of_ascii c) in
  if bool_decide (48 <= n <= 57) then Some (n - 48) else None.

Fixpoint digits_value (acc : Z) (s : string) : option Z :=
  match s with
  | EmptyString => Some acc
  | String c s' => d ← digit_of c; digits_value (10 * acc + d) s'
  end.

Definition unsigned_value (s : string) : option Z :=
  match s with
  | EmptyString => None
  | _ => digits_value 0 s
  end.

Definition signed_value (s : string) : option Z :=
  match s with
  | String "-" s' => Z.opp <$> unsigned_value s'
  | String "+" s' => unsigned_value s'
  | _ => unsigned_value s
  end.

Definition text_to_integer (s : string) : result Z :=
  match signed_value s with
  | Some z =>
      if bool_decide (-2147483648 <= z <= 2147483647) then Ok z
      else Raise (InvalidTextRepresentation s)
  | None => Raise (InvalidTextRepresentation s)
  end.

End Sql.

Export Sql.

(** ** The message store: [database_schema_v2_messages.sql] *)

Module Store.

(** Primary keys are UUIDs; only their identity matters. *)
Abbreviation uuid := N.

(** Timestamps (TIMESTAMP WITH TIME ZONE) count microseconds. *)
Abbreviation timestamp := Z.

Definition hours (h : Z) : Z := h * 3600000000.

Inductive user_role : Type := guest | normal | admin | operator.

#[global] Instance user_role_eq_dec : EqDecision user_role.
Proof. solve_decision. Defined.

(** The columns of [users_v2] that the message functions read or write. *)
Record user_row : Type := UserRow {
  u_username : string;
  u_display_name : option string;
  u_role : user_role;
  u_last_active : timestamp;
  u_is_online : option bool
}.

(** The columns of [groups] that the TTL resolver reads. *)
Record group_row : Type := GroupRow {
  message_deletion_timer : option Z;
  is_active : option bool
}.

Record message_row : Type := MessageRow {
  user_id : uuid;
  username : string;
  display_name : option string;
  content : string;
  message_type : string;
  group_id : option uuid;
  user_role_snapshot : user_role;
  created_at : timestamp;
  expires_at : timestamp;
  is_pinned : option bool
}.

(** [app_settings], keyed by its UNIQUE [setting_key]. *)
Record setting_row : Type := SettingRow {
  setting_value : string;
  description : option string;
  updated_by : option uuid;
  updated_at : timestamp
}.

Record database : Type := Database {
  users_v2 : gmap N user_row;
  groups : gmap N group_row;
  messages_v2 : gmap N message_row;
  app_settings : gmap string setting_row
}.

Definition with_messages (db : database) (ms : gmap N message_row) : database :=
  {| users_v2 := users_v2 db; groups := groups db;
     messages_v2 := ms; app_settings := app_settings db |}.

Definition with_users (db : database) (us : gmap N user_row) : database :=
  {| users_v2 := us; groups := groups db;
     messages_v2 := messages_v2 db; app_settings := app_settings db |}.

Definition with_settings (db : database) (ss : gmap string setting_row) : database :=
  {| users_v2 := users_v2 db; groups := groups db;
     messages_v2 := messages_v2 db; app_settings := ss |}.

Definition retention_key : string := "default_message_retention_hours".

(** SELECT (message_deletion_timer / 3600) FROM groups
    WHERE id = p_group_id AND is_active = true: [None] when no row is
    selected or the timer is NULL. Integer division truncates. *)
Definition group_retention_hours (db : database) (g : uuid) : option Z :=
  row ← groups db !! g;
  if holds (sql_eq (is_active row) (Some true))
  then (fun t => Z.quot t 3600) <$> message_deletion_timer row
  else None.

(** SELECT setting_value::INTEGER FROM app_settings
    WHERE setting_key = 'default_message_retention_hours'. *)
Definition setting_retention_hours (db : database) : result (option Z) :=
  match app_settings db !! retention_key with
  | Some row => h ← text_to_integer (setting_value row); mret (Some h)
  | None => mret None
  end.

(** The retention, in hours, that [calculate_message_ttl] settles on. *)
Definition resolve_retention_hours (db : database) (p_message_type : string)
    (p_group_id : option uuid) (p_custom_retention_hours : option Z) : result Z :=
  match p_custom_retention_hours with
  | Some h => mret h
  | None =>
      match bool_decide (p_message_type = "group"), p_group_id with
      | true, Some g =>
          mret (default 24 (group_retention_hours db g))
      | _, _ =>
          h ← setting_retention_hours db;
          mret (default 24 h)
      end
  end.

Definition calculate_message_ttl (db : database) (now : timestamp)
    (p_message_type : string) (p_group_id : option uuid)
    (p_custom_retention_hours : option Z) : result timestamp :=
  retention_hours ← resolve_retention_hours db p_message_type p_group_id
                       p_custom_retention_hours;
  mret (now + hours retention_hours).

Definition get_message_retention_hours (db : database) : result Z :=
  h ← setting_retention_hours db;
  mret (default 24 h).

(** UPDATE users_v2 SET last_active = NOW(), is_online = true WHERE id = .. *)
Definition touch_user (now : timestamp) (u : user_row) : user_row :=
  {| u_username := u_username u; u_display_name := u_display_name u;
     u_role := u_role u; u_last_active := now; u_is_online := Some true |}.

Definition update_user_last_active_v2 (db : database) (now : timestamp)
    (uid : uuid) : database :=
  with_users db (alter (touch_user now) uid (users_v2 db)).

(** The table constraints of [messages_v2]. *)
Definition valid_message_type (m : message_row) : option bool :=
  Some (bool_decide (message_type m = "direct")
        || bool_decide (message_type m = "group")).

Definition valid_group_message (m : message_row) : option bool :=
  sql_or
    (sql_and (Some (bool_decide (message_type m = "direct")))
             (Some (bool_decide (group_id m = None))))
    (sql_and (Some (bool_decide (message_type m = "group")))
             (Some (negb (bool_decide (group_id m = None))))).

Definition valid_pinned_message (m : message_row) : option bool :=
  sql_or
    (sql_eq (is_pinned m) (Some false))
    (sql_and (sql_eq (is_pinned m) (Some true))
             (Some (bool_decide (user_role_snapshot m = operator)))).

Definition check_constraints (m : message_row) : result unit :=
  guard_ok (check_passes (valid_message_type m))
           (CheckViolation "valid_message_type");;
  guard_ok (check_passes (valid_group_message m))
           (CheckViolation "valid_group_message");;
  guard_ok (check_passes (valid_pinned_message m))
           (CheckViolation "valid_pinned_message").

(** INSERT INTO messages_v2: the row gets the generated key [new_id],
    [created_at] and [is_pinned] take their column defaults, and the
    AFTER INSERT trigger refreshes the author's activity. *)
Definition insert_message (db : database) (now : timestamp) (new_id : uuid)
    (m : message_row) : result database :=
  check_constraints m;;
  guard_ok (bool_decide (messages_v2 db !! new_id = None))
           (UniqueViolation "messages_v2_pkey");;
  guard_ok (bool_decide (is_Some (users_v2 db !! user_id m)))
           (ForeignKeyViolation "messages_v2_user_id_fkey");;
  guard_ok (match group_id m with
            | Some g => bool_decide (is_Some (groups db !! g))
            | None => true
            end)
           (ForeignKeyViolation "messages_v2_group_id_fkey");;
  mret (update_user_last_active_v2
          (with_messages db (<[new_id := m]> (messages_v2 db))) now (user_id m)).

(** [send_message_v2_guest]. [now] is NOW(), fixed for the transaction, and
    [new_id] the key that uuid_generate_v4() draws. The arguments declared
    without DEFAULT NULL are taken as present, as every caller passes them;
    an absent id behaves like one that matches no row. *)
Definition send_message_v2_guest (db : database) (now : timestamp)
    (new_id : uuid) (p_user_id : uuid) (p_content : string)
    (p_message_type : string) (p_group_id : option uuid)
    (p_custom_retention_hours : option Z) : result (database * uuid) :=
  match users_v2 db !! p_user_id with
  | None => Raise (RaiseException "User not found")
  | Some user_data =>
      ttl_timestamp ← calculate_message_ttl db now p_message_type p_group_id
                         p_custom_retention_hours;
      db1 ← insert_message db now new_id
              {| user_id := p_user_id;
                 username := u_username user_data;
                 display_name := u_display_name user_data;
                 content := p_content;
                 message_type := p_message_type;
                 group_id := p_group_id;
                 user_role_snapshot := u_role user_data;
                 created_at := now;
                 expires_at := ttl_timestamp;
                 is_pinned := Some false |};
      mret (update_user_last_active_v2 db1 now p_user_id, new_id)
  end.

Definition set_pinned (v : option bool) (m : message_row) : message_row :=
  {| user_id := user_id m; username := username m;
     display_name := display_name m; content := content m;
     message_type := message_type m; group_id := group_id m;
     user_role_snapshot := user_role_snapshot m;
     created_at := created_at m; expires_at := expires_at m;
     is_pinned := v |}.

(** [toggle_message_pin]. A SELECT .. INTO that finds no row leaves its
    target NULL; the UPDATE re-checks the constraints of the row. *)
Definition toggle_message_pin (db : database) (p_message_id p_operator_id : uuid)
    : result (database * option bool) :=
  let operator_role := u_role <$> users_v2 db !! p_operator_id in
  if holds (sql_neq operator_role (Some operator))
  then Raise (RaiseException "Only operators can pin/unpin messages")
  else
    match messages_v2 db !! p_message_id with
    | None => Raise (RaiseException "Message not found")
    | Some m =>
        let current_pin_status := is_pinned m in
        let m' := set_pinned (sql_not current_pin_status) m in
        check_constraints m';;
        mret (with_messages db (<[p_message_id := m']> (messages_v2 db)),
              sql_not current_pin_status)
    end.

(** The WHERE clause of the sweep:
    expires_at < NOW() AND is_pinned = FALSE. *)
Definition expired_unpinned (now : timestamp) (m : message_row) : bool :=
  holds (sql_and (Some (bool_decide (expires_at m < now)))
                 (sql_eq (is_pinned m) (Some false))).

(** [cleanup_expired_messages]: the DELETE and its ROW_COUNT. *)
Definition cleanup_expired_messages (db : database) (now : timestamp)
    : database * Z :=
  let doomed :=
    filter (fun kv => expired_unpinned now kv.2 = true) (messages_v2 db) in
  let kept :=
    filter (fun kv => ¬ expired_unpinned now kv.2 = true) (messages_v2 db) in
  (with_messages db kept, Z.of_nat (size doomed)).

(** What the constraints and keys of [messages_v2] guarantee of a table:
    every row passes the CHECK constraints, and its author and its group
    are rows of [users_v2] and [groups]. *)
Definition consistent (db : database) : Prop :=
  forall (i : uuid) (m : message_row),
    messages_v2 db !! i = Some m ->
    check_constraints m = Ok tt /\
    is_Some (users_v2 db !! user_id m) /\
    forall g : uuid, group_id m = Some g -> is_Some (groups db !! g).

End Store.

(** ** The operator's retention setting: [HybridMessagingService] *)

Module Hybrid.
Import Store.

(** The row level security policy of [app_settings], "Only operators can
    modify app settings": rows are visible to a write only when the
    session's auth.uid() is a user whose role is operator. *)
Definition may_modify_settings (db : database) (auth_uid : option uuid) : bool :=
  match auth_uid ≫= (users_v2 db !!.) with
  | Some u => bool_decide (u_role u = operator)
  | None => false
  end.

(** supabase.from('app_settings').update({..}).eq('setting_key', key): the
    rows that the policy hides are skipped without an error; a row that is
    written must keep [updated_by] a key of [users_v2]. *)
Definition update_setting (db : database) (auth_uid : option uuid)
    (key : string) (value : string) (by_user : uuid) (at_time : timestamp)
    : result database :=
  match app_settings db !! key with
  | Some row =>
      if may_modify_settings db auth_uid then
        guard_ok (bool_decide (is_Some (users_v2 db !! by_user)))
                 (ForeignKeyViolation "app_settings_updated_by_fkey");;
        mret (with_settings db
                (<[key := {| setting_value := value;
                             description := description row;
                             updated_by := Some by_user;
                             updated_at := at_time |}]> (app_settings db)))
      else mret db
  | None => mret db
  end.

(** [updateMessageRetentionHours(hours, operatorUserId)], for a whole number
    of hours; [client_now] is the caller's new Date(). The result pairs the
    database afterwards with the boolean the method resolves to. *)
Definition updateMessageRetentionHours (db : database) (auth_uid : option uuid)
    (client_now : timestamp) (hours : Z) (operatorUserId : uuid)
    : database * bool :=
  match update_setting db auth_uid retention_key (pretty hours)
          operatorUserId client_now with
  | Ok db' => (db', true)
  | Raise _ => (db, false)
  end.

(** [getMessageRetentionHours]: the answer of the rpc, with 24 in the place
    of an error and of a falsy answer ([data || 24]). *)
Definition getMessageRetentionHours (db : database) : Z :=
  match get_message_retention_hours db with
  | Ok data => if bool_decide (data = 0) then 24 else data
  | Raise _ => 24
  end.

(** The policy of [messages_v2] for reads, "Anyone can view active
    messages": a SELECT through the client sees the rows with
    expires_at > NOW(). *)
Definition visible_messages (db : database) (now : timestamp)
    : gmap N message_row :=
  filter (fun kv => now < expires_at kv.2) (messages_v2 db).

(** The message object that [sendMessage] builds from the fetched row. *)
Record RealtimeMessage : Type := {
  rm_id : uuid;
  rm_user_id : uuid;
  rm_username : string;
  rm_display_name : option string;
  rm_content : string;
  rm_created_at : timestamp;
  rm_expires_at : timestamp;
  rm_group_id : option uuid;
  rm_message_type : string;
  rm_user_role : user_role
}.

Definition to_realtime (i : uuid) (storedMessage : message_row) : RealtimeMessage :=
  {| rm_id := i;
     rm_user_id := user_id storedMessage;
     rm_username := username storedMessage;
     rm_display_name := display_name storedMessage;
     rm_content := content storedMessage;
     rm_created_at := created_at storedMessage;
     rm_expires_at := expires_at storedMessage;
     rm_group_id := group_id storedMessage;
     rm_message_type := message_type storedMessage;
     rm_user_role := user_role_snapshot storedMessage |}.

(** What [sendMessage] throws. *)
Inductive send_error : Type :=
  | FailedToStore (dbError : sql_error)
  | FailedToFetch.

(** What one call of [sendMessage] leaves behind: the database, the message
    it resolves to or the error it throws, and the message it broadcasts on
    its channel, if it is subscribed to one. *)
Record send_result : Type := {
  sr_database : database;
  sr_outcome : send_error + RealtimeMessage;
  sr_broadcast : option RealtimeMessage
}.

(** [sendMessage]: the rpc at [now], then the fetch of the row by its id
    with .single() at [now_fetch], then the broadcast. An omitted
    [customRetentionHours] reaches the function as NULL. *)
Definition sendMessage (db : database) (now now_fetch : timestamp)
    (new_id : uuid) (text context : string) (groupId : option uuid)
    (user : uuid) (customRetentionHours : option Z) (subscribed : bool)
    : send_result :=
  match send_message_v2_guest db now new_id user text context groupId
          customRetentionHours with
  | Raise dbError =>
      {| sr_database := db; sr_outcome := inl (FailedToStore dbError);
         sr_broadcast := None |}
  | Ok (db', messageId) =>
      match visible_messages db' now_fetch !! messageId with
      | None =>
          {| sr_database := db'; sr_outcome := inl FailedToFetch;
             sr_broadcast := None |}
      | Some storedMessage =>
          let realtimeMessage := to_realtime messageId storedMessage in
          {| sr_database := db'; sr_outcome := inr realtimeMessage;
             sr_broadcast := if subscribed then Some realtimeMessage else None |}
      end
  end.

(** [getChannelName]: a null group id is spelled out by the template. *)
Definition getChannelName (context : string) (groupId : option string) : string :=
  if bool_decide (context = "direct") then "direct_chat"
  else "group_" +:+ default "null" groupId.

End Hybrid.

(** ** The client's ordered view: [RealtimeChat], [RealtimeMessagingService]
       and [DirectChat] *)

Module Client.

(** A message as the client holds it. [created_at] and [expires_at] are the
    milliseconds that new Date(..).getTime() reads from the ISO text. *)
Record RealtimeMessage : Type := Message {
  id : string;
  user_id : string;
  username : string;
  display_name : option string;
  content : string;
  created_at : Z;
  expires_at : Z;
  group_id : option string;
  message_type : string;
  user_role : Store.user_role
}.

(** prev.some(m => m.id === i) *)
Definition has_id (i : string) (l : list RealtimeMessage) : bool :=
  existsb (fun m => bool_decide (id m = i)) l.

(** messages.sort((a, b) => time(a.created_at) - time(b.created_at)).
    The sort of an array is stable, which fixes its result: here it is
    computed by insertion from the right, a new element going before the
    first one that is not earlier than it. *)
Fixpoint insert_by_created_at (x : RealtimeMessage) (l : list RealtimeMessage)
    : list RealtimeMessage :=
  match l with
  | [] => [x]
  | y :: l' =>
      if bool_decide (created_at x <= created_at y) then x :: y :: l'
      else y :: insert_by_created_at x l'
  end.

Definition sort_by_created_at (l : list RealtimeMessage) : list RealtimeMessage :=
  foldr insert_by_created_at [] l.

(** Ascending by [created_at]. *)
Definition earlier (a b : RealtimeMessage) : Prop := created_at a <= created_at b.

(** [RealtimeChat]'s [handleNewMessage], as the update of the message list. *)
Definition handleNewMessage (prev : list RealtimeMessage)
    (message : RealtimeMessage) : list RealtimeMessage :=
  let exists_ := has_id (id message) prev in
  if exists_ then prev
  else sort_by_created_at (prev ++ [message]).

(** [RealtimeMessagingService.addMessage] on the per-channel lists. *)
Definition addMessage (messages : gmap string (list RealtimeMessage))
    (channelName : string) (message : RealtimeMessage)
    : gmap string (list RealtimeMessage) :=
  let messages1 :=
    if bool_decide (is_Some (messages !! channelName)) then messages
    else <[channelName := []]> messages in
  let channel_messages := default [] (messages1 !! channelName) in
  let existingIndex :=
    fst <$> list_find (fun m => id m = id message) channel_messages in
  match existingIndex with
  | None =>
      <[channelName := sort_by_created_at (channel_messages ++ [message])]>
        messages1
  | Some _ => messages1
  end.

(** [DirectChat]: the handler of INSERT events of the change feed. *)
Definition is_temp_for (newMessage msg : RealtimeMessage) : bool :=
  String.prefix "temp-" (id msg)
  && bool_decide (content msg = content newMessage)
  && bool_decide (user_id msg = user_id newMessage).

Definition DirectChat_onInsert (prev : list RealtimeMessage)
    (newMessage : RealtimeMessage) : list RealtimeMessage :=
  let exists_ := has_id (id newMessage) prev in
  if negb exists_ then prev ++ [newMessage]
  else
    (fun msg =>
       if is_temp_for newMessage msg then newMessage
       else if bool_decide (id msg = id newMessage) then newMessage
       else msg) <$> prev.

(** [DirectChat]: the handler of DELETE events. *)
Definition DirectChat_onDelete (prev : list RealtimeMessage)
    (deletedMessage : RealtimeMessage) : list RealtimeMessage :=
  filter (fun msg => id msg ≠ id deletedMessage) prev.

Section DirectChat.

(** [messageCleanupService.isMessageExpired], applied to [expires_at] at
    the moment of the call; the service is outside these sources. *)
Variable isMessageExpired : Z -> bool.

(** String.prototype.trim. *)
Variable trim : string -> string.

(** The tick of [cleanupInterval]. *)
Definition DirectChat_cleanupInterval (prev : list RealtimeMessage)
    : list RealtimeMessage :=
  filter (fun message => isMessageExpired (expires_at message) = false) prev.

(** The tick of [syncInterval]. [fetched] is the answer of the query over
    [messages_v2], ascending by [created_at], or [None] on an error. *)
Definition DirectChat_syncInterval (prev : list RealtimeMessage)
    (fetched : option (list RealtimeMessage)) : list RealtimeMessage :=
  match fetched with
  | None => prev
  | Some data =>
      let validMessages :=
        filter (fun message => isMessageExpired (expires_at message) = false)
               data in
      let newMessages :=
        filter (fun dbMsg => has_id (id dbMsg) prev = false) validMessages in
      if bool_decide (0 < List.length newMessages)%nat then validMessages
      else prev
  end.

(** The signed-in user of the auth context. *)
Record User : Type := {
  u_id : string;
  u_username : string;
  u_display_name : option string;
  u_role : Store.user_role
}.

(** The component state that [sendMessage] touches. *)
Record chat_state : Type := ChatState {
  messages : list RealtimeMessage;
  newMessage : string;
  sending : bool
}.

Definition optimisticMessage (tempId : string) (user : User) (content_ : string)
    (now : Z) : RealtimeMessage :=
  {| id := tempId;
     user_id := u_id user;
     username := u_username user;
     display_name := u_display_name user;
     content := content_;
     created_at := now;
     expires_at := now + 24 * 60 * 60 * 1000;
     group_id := None;
     message_type := "direct";
     user_role := u_role user |}.

(** What the two requests of [sendMessage] come back with: the stored row
    (or nothing, when the fetch yields no row), or a thrown error. *)
Inductive send_outcome : Type :=
  | Stored (storedMessage : option RealtimeMessage)
  | Thrown.

(** [sendMessage] up to the first await: the optimistic entry is shown. *)
Definition sendMessage_begin (st : chat_state) (tempId : string) (user : User)
    (now : Z) : chat_state :=
  {| messages := messages st ++ [optimisticMessage tempId user (trim (newMessage st)) now];
     newMessage := "";
     sending := true |}.

(** [sendMessage] after the requests, on the state as it then is. *)
Definition sendMessage_settle (st : chat_state) (tempId : string)
    (content_ : string) (outcome : send_outcome) : chat_state :=
  match outcome with
  | Stored (Some storedMessage) =>
      {| messages :=
           (fun m => if bool_decide (id m = tempId) then storedMessage else m)
             <$> messages st;
         newMessage := newMessage st;
         sending := false |}
  | Stored None =>
      {| messages := messages st; newMessage := newMessage st; sending := false |}
  | Thrown =>
      {| messages := filter (fun m => id m ≠ tempId) (messages st);
         newMessage := content_;
         sending := false |}
  end.

(** [sendMessage] with nothing else happening in between. *)
Definition sendMessage (st : chat_state) (user : option User)
    (tempSuffix : string) (now : Z) (outcome : send_outcome) : chat_state :=
  match user with
  | Some u =>
      if bool_decide (trim (newMessage st) = "") || sending st then st
      else
        let tempId := "temp-" +:+ tempSuffix in
        sendMessage_settle (sendMessage_begin st tempId u now) tempId
          (trim (newMessage st)) outcome
  | None => st
  end.

End DirectChat.

(** [RealtimeMessagingService.getMessages], by channel name. *)
Definition getMessages (messages : gmap string (list RealtimeMessage))
    (channelName : string) : list RealtimeMessage :=
  default [] (messages !! channelName).

(** [RealtimeMessagingService.deleteMessage]: the per-channel lists
    afterwards, and the messages handed one by one to the channel's handler
    ([hasHandler] tells whether one is registered). *)
Definition deleteMessage (messages : gmap string (list RealtimeMessage))
    (hasHandler : bool) (channelName messageId : string)
    : gmap string (list RealtimeMessage) * list RealtimeMessage :=
  match messages !! channelName with
  | Some channel_messages =>
      match list_find (fun m => id m = messageId) channel_messages with
      | Some (index, _) =>
          let rest := delete index channel_messages in
          (<[channelName := rest]> messages, if hasHandler then rest else [])
      | None => (messages, [])
      end
  | None => (messages, [])
  end.

(** [RealtimeChat]: the list of online users under [handleUserJoin] and
    [handleUserLeave]. *)
Definition handleUserJoin (prev : list User) (joinedUser : User) : list User :=
  let exists_ := existsb (fun u => bool_decide (u_id u = u_id joinedUser)) prev in
  if exists_ then prev else prev ++ [joinedUser].

Definition handleUserLeave (prev : list User) (leftUser : User) : list User :=
  filter (fun u => u_id u ≠ u_id leftUser) prev.

(** [DirectChat]'s [CountdownTimer]: one run of [updateTimer]. *)
Module CountdownTimer.





End CountdownTimer.

End Client.

(** ** Sample data *)

Module Samples.
Import Store.

Definition an_operator : user_row :=
  UserRow "calm_otter_17" (Some "Ops") operator 0 (Some false).

Definition a_guest : user_row :=
  UserRow "brave_fox_42" None guest 0 (Some false).

(** Two users, an active group with a half-hour timer, an inactive group
    with a two-hour timer, and a default retention of 48 hours. *)
Definition db0 : database :=
  {| users_v2 := <[1%N := an_operator]> (<[2%N := a_guest]> ∅);
     groups := <[7%N := GroupRow (Some 1800) (Some true)]>
                 (<[8%N := GroupRow (Some 7200) (Some false)]> ∅);
     messages_v2 := ∅;
     app_settings :=
       <[retention_key :=
           SettingRow "48" (Some "Default message retention time") None 0]> ∅ |}.

Definition msg (author : uuid) (role : user_role) (created expires : timestamp)
    (pinned : option bool) : message_row :=
  {| user_id := author; username := "u"; display_name := None;
     content := "hello"; message_type := "direct"; group_id := None;
     user_role_snapshot := role; created_at := created;
     expires_at := expires; is_pinned := pinned |}.

(** [db0] holding an old pinned message of the operator, an old unpinned
    message of the guest, and a live one. *)
Definition db1 : database :=
  with_messages db0
    (<[10%N := msg 1 operator 0 100 (Some true)]>
       (<[11%N := msg 2 guest 0 100 (Some false)]>
          (<[12%N := msg 2 guest 0 9000 (Some false)]> ∅))).

End Samples.

Module ViewSamples.
Import Client.

Definition entry (i text : string) (created : Z) : RealtimeMessage :=
  {| id := i; user_id := "user-2"; username := "brave_fox_42";
     display_name := None; content := text; created_at := created;
     expires_at := created + 86400000; group_id := None;
     message_type := "direct"; user_role := Store.guest |}.

Definition fox : User :=
  {| u_id := "user-2"; u_username := "brave_fox_42";
     u_display_name := None; u_role := Store.guest |}.

(** No trimming and nothing expired: enough for the sample runs. *)
Definition keep_text (s : string) : string := s.
Definition none_expired (expires : Z) : bool := false.

End ViewSamples.

(** * Properties of the store *)

Ltac result_simpl :=
  unfold mbind, mret, result_bind, result_ret in *; simpl in *.

Section StoreFacts.
Import Store.

Implicit Types (db : database) (now : timestamp) (m : message_row).

Lemma bind_Ok {A B} (r : result A) (f : A -> result B) (b : B) :
  r ≫= f = Ok b -> exists a, r = Ok a /\ f a = Ok b.
Proof. destruct r as [a|e]; [eauto | discriminate]. Qed.

Lemma guard_ok_Ok (b : bool) (e : sql_error) (u : unit) :
  guard_ok b e = Ok u -> b = true.
Proof. destruct b; [done | discriminate]. Qed.

Lemma hours_pos (h : Z) : 0 < hours h <-> 0 < h.
Proof. unfold hours. lia. Qed.

(** *** The TTL resolver *)

Lemma group_retention_hours_unavailable db (g : uuid) :
  (groups db !! g = None \/
   exists row, groups db !! g = Some row /\ is_active row <> Some true) ->
  group_retention_hours db g = None.
Proof.
  unfold group_retention_hours.
  intros [-> | (row & -> & Hrow)]; [done |].
  simpl. destruct (is_active row) as [[]|]; simpl; congruence.
Qed.

(** C1, where the store departs from it. For a group-scoped call without
    an override whose group is missing or inactive, the resolver answers
    [now] plus the constant 24 hours and never reads the setting, whereas a
    direct-scoped call answers [now] plus the configured
    default_message_retention_hours. *)
Theorem calculate_message_ttl_unavailable_group db now (g : uuid) (h : Z) :
  (groups db !! g = None \/
   exists row, groups db !! g = Some row /\ is_active row <> Some true) ->
  get_message_retention_hours db = Ok h ->
  calculate_message_ttl db now "group" (Some g) None = Ok (now + hours 24) /\
  calculate_message_ttl db now "direct" None None = Ok (now + hours h).
Proof.
  intros Hg Hh. split.
  - unfold calculate_message_ttl, resolve_retention_hours. simpl.
    by rewrite (group_retention_hours_unavailable _ _ Hg).
  - unfold calculate_message_ttl, resolve_retention_hours. simpl.
    unfold get_message_retention_hours in Hh.
    destruct (setting_retention_hours db) as [o|e]; result_simpl; congruence.
Qed.

Lemma calculate_message_ttl_unavailable_group_at_48 :
  (exists row, groups Samples.db0 !! 8%N = Some row /\ is_active row <> Some true) /\
  get_message_retention_hours Samples.db0 = Ok 48 /\
  calculate_message_ttl Samples.db0 1000 "group" (Some 8%N) None
    = Ok (1000 + hours 24) /\
  calculate_message_ttl Samples.db0 1000 "direct" None None
    = Ok (1000 + hours 48).
Proof.
  assert (Hrow : exists row, groups Samples.db0 !! 8%N = Some row
                             /\ is_active row <> Some true).
  { exists (GroupRow (Some 7200) (Some false)). split; [reflexivity | discriminate]. }
  split; [exact Hrow |]. split; [reflexivity |].
  apply (calculate_message_ttl_unavailable_group Samples.db0 1000 8%N 48).
  - right. exact Hrow.
  - reflexivity.
Defined.

(** The resolver on the sample database: an override wins; a group's timer
    is cut down to whole hours; direct scope, and group scope without a
    group id, read the setting. *)
Example calculate_message_ttl_override :
  calculate_message_ttl Samples.db0 1000 "group" (Some 7%N) (Some 2)
  = Ok (1000 + hours 2).
Proof. reflexivity. Qed.

Example calculate_message_ttl_half_hour_group :
  calculate_message_ttl Samples.db0 1000 "group" (Some 7%N) None = Ok 1000.
Proof. reflexivity. Qed.

Example calculate_message_ttl_direct :
  calculate_message_ttl Samples.db0 1000 "direct" None None
  = Ok (1000 + hours 48).
Proof. reflexivity. Qed.

Example calculate_message_ttl_group_without_id :
  calculate_message_ttl Samples.db0 1000 "group" None None
  = Ok (1000 + hours 48).
Proof. reflexivity. Qed.

Example text_to_integer_samples :
  text_to_integer "24" = Ok 24 /\ text_to_integer "-3" = Ok (-3) /\
  text_to_integer "24.5" = Raise (InvalidTextRepresentation "24.5") /\
  text_to_integer "" = Raise (InvalidTextRepresentation "").
Proof. repeat split. Qed.

(** *** Append *)

Lemma update_user_last_active_v2_messages db now (uid : uuid) :
  messages_v2 (update_user_last_active_v2 db now uid) = messages_v2 db.
Proof. reflexivity. Qed.

Lemma insert_message_stored db now (new_id : uuid) m db1 :
  insert_message db now new_id m = Ok db1 ->
  messages_v2 db1 = <[new_id := m]> (messages_v2 db) /\
  messages_v2 db !! new_id = None /\
  check_constraints m = Ok tt.
Proof.
  unfold insert_message. intros H.
  apply bind_Ok in H as ([] & Hchk & H).
  apply bind_Ok in H as ([] & Hfresh%guard_ok_Ok & H).
  apply bind_Ok in H as ([] & _ & H).
  apply bind_Ok in H as ([] & _ & H).
  result_simpl. injection H as <-.
  rewrite bool_decide_eq_true in Hfresh. done.
Qed.

Lemma resolve_retention_hours_custom db (mt : string) (gid : option uuid) (c : Z) :
  resolve_retention_hours db mt gid (Some c) = Ok c.
Proof. reflexivity. Qed.

(** C2, as the store has it. A message stored by [send_message_v2_guest]
    is created at [now] and expires exactly the resolved number of hours
    later, an override being taken as it is: [expires_at] is strictly after
    [created_at] if and only if that number of hours is positive. *)
Theorem send_message_v2_guest_expiry db now (new_id uid : uuid)
    (text mt : string) (gid : option uuid) (custom : option Z)
    db' (mid : uuid) :
  send_message_v2_guest db now new_id uid text mt gid custom = Ok (db', mid) ->
  exists m h,
    messages_v2 db' !! mid = Some m /\
    resolve_retention_hours db mt gid custom = Ok h /\
    (forall c, custom = Some c -> h = c) /\
    created_at m = now /\
    expires_at m = created_at m + hours h /\
    (created_at m < expires_at m <-> 0 < h).
Proof.
  unfold send_message_v2_guest. intros H.
  destruct (users_v2 db !! uid) as [user_data|]; [| discriminate].
  apply bind_Ok in H as (ttl & Httl & H).
  apply bind_Ok in H as (db1 & Hins & H).
  result_simpl. injection H as <- <-.
  unfold calculate_message_ttl in Httl.
  apply bind_Ok in Httl as (h & Hh & Httl).
  result_simpl. injection Httl as <-.
  apply insert_message_stored in Hins as (Hmsgs & _ & _).
  eexists _, h. rewrite Hmsgs, lookup_insert_eq.
  split; [reflexivity |]. split; [exact Hh |]. simpl.
  split.
  { intros c ->. rewrite resolve_retention_hours_custom in Hh. congruence. }
  split; [reflexivity |]. split; [reflexivity |].
  pose proof (hours_pos h). lia.
Qed.

Lemma send_message_v2_guest_expiry_two_hours :
  match send_message_v2_guest Samples.db0 1000 5%N 2%N "hi" "direct" None (Some 2)
  with
  | Ok (db', mid) =>
      exists m h,
        messages_v2 db' !! mid = Some m /\
        resolve_retention_hours Samples.db0 "direct" None (Some 2) = Ok h /\
        (forall c, Some 2 = Some c -> h = c) /\
        created_at m = 1000 /\
        expires_at m = created_at m + hours h /\
        (created_at m < expires_at m <-> 0 < h)
  | Raise _ => False
  end.
Proof.
  destruct (send_message_v2_guest Samples.db0 1000 5%N 2%N "hi" "direct" None
              (Some 2)) as [[db' mid]|e] eqn:E.
  - exact (send_message_v2_guest_expiry _ _ _ _ _ _ _ _ _ _ E).
  - vm_compute in E. discriminate E.
Defined.

(** An override of zero hours is stored with [expires_at] equal to
    [created_at]. *)
Lemma send_message_v2_guest_zero_override :
  match send_message_v2_guest Samples.db0 1000 5%N 2%N "hi" "direct" None (Some 0)
  with
  | Ok (db', mid) =>
      exists m, messages_v2 db' !! mid = Some m /\
                ~ (expires_at m > created_at m)
  | Raise _ => False
  end.
Proof.
  vm_compute. eexists. split; [reflexivity |]. simpl. discriminate.
Qed.

(** *** The sweep *)

Lemma expired_unpinned_true now m :
  expired_unpinned now m = true <-> expires_at m < now /\ is_pinned m = Some false.
Proof.
  unfold expired_unpinned.
  destruct (is_pinned m) as [[]|]; simpl; case_bool_decide; simpl;
    intuition congruence.
Qed.

Lemma cleanup_lookup db now (i : uuid) m :
  messages_v2 (cleanup_expired_messages db now).1 !! i = Some m <->
  messages_v2 db !! i = Some m /\
  ~ (expires_at m < now /\ is_pinned m = Some false).
Proof.
  simpl. rewrite map_lookup_filter_Some. simpl.
  by rewrite expired_unpinned_true.
Qed.

Lemma cleanup_count db now :
  (cleanup_expired_messages db now).2 =
  Z.of_nat (size (messages_v2 db))
  - Z.of_nat (size (messages_v2 (cleanup_expired_messages db now).1)).
Proof.
  simpl.
  set (P := fun kv : N * message_row => expired_unpinned now kv.2 = true).
  rewrite <- (map_filter_union_complement P (messages_v2 db)) at 2.
  rewrite map_size_disj_union by apply map_disjoint_filter_complement.
  subst P. cbv beta. lia.
Qed.

Lemma cleanup_count_expired_unpinned db now :
  (cleanup_expired_messages db now).2 =
  Z.of_nat (size (filter (fun kv : N * message_row =>
                            expires_at kv.2 < now /\ is_pinned kv.2 = Some false)
                         (messages_v2 db))).
Proof.
  simpl. do 2 f_equal. apply map_filter_ext.
  intros i m _. simpl. apply expired_unpinned_true.
Qed.

(** C3. The sweep keeps exactly the messages that are not both expired
    before [now] and unpinned, returns the number of messages that are (the
    number it removed), never removes a pinned message, and touches no other
    table. *)
Theorem cleanup_expired_messages_exact db now :
  (forall (i : uuid) m,
     messages_v2 (cleanup_expired_messages db now).1 !! i = Some m <->
     messages_v2 db !! i = Some m /\
     ~ (expires_at m < now /\ is_pinned m = Some false)) /\
  (cleanup_expired_messages db now).2 =
    Z.of_nat (size (filter (fun kv : N * message_row =>
                              expires_at kv.2 < now /\ is_pinned kv.2 = Some false)
                           (messages_v2 db))) /\
  (cleanup_expired_messages db now).2 =
    Z.of_nat (size (messages_v2 db))
    - Z.of_nat (size (messages_v2 (cleanup_expired_messages db now).1)) /\
  (forall (i : uuid) m,
     messages_v2 db !! i = Some m -> is_pinned m = Some true ->
     messages_v2 (cleanup_expired_messages db now).1 !! i = Some m) /\
  users_v2 (cleanup_expired_messages db now).1 = users_v2 db /\
  groups (cleanup_expired_messages db now).1 = groups db /\
  app_settings (cleanup_expired_messages db now).1 = app_settings db.
Proof.
  split; [apply cleanup_lookup |].
  split; [apply cleanup_count_expired_unpinned |].
  split; [apply cleanup_count |].
  split; [| done].
  intros i m Hm Hpin. apply cleanup_lookup. split; [done |].
  intros [_ Hunpinned]. congruence.
Qed.

Example cleanup_expired_messages_sample :
  let r := cleanup_expired_messages Samples.db1 500 in
  r.2 = 1 /\
  messages_v2 r.1 !! 10%N = messages_v2 Samples.db1 !! 10%N /\
  messages_v2 r.1 !! 11%N = None /\
  messages_v2 r.1 !! 12%N = messages_v2 Samples.db1 !! 12%N.
Proof. repeat split. Qed.

(** C4. A second sweep, at a time by which no further unpinned message of
    the store has expired, removes nothing and leaves the store as the first
    sweep left it. *)
Theorem cleanup_expired_messages_twice db now now' :
  (forall (i : uuid) m,
     messages_v2 db !! i = Some m -> is_pinned m = Some false ->
     ~ (now <= expires_at m < now')) ->
  cleanup_expired_messages (cleanup_expired_messages db now).1 now'
  = ((cleanup_expired_messages db now).1, 0).
Proof.
  intros Hquiet.
  assert (Hnone : forall (i : uuid) m,
             messages_v2 (cleanup_expired_messages db now).1 !! i = Some m ->
             ~ expired_unpinned now' m = true).
  { intros i m [Hm Hkept]%cleanup_lookup [Hexp Hpin]%expired_unpinned_true.
    specialize (Hquiet i m Hm Hpin).
    assert (~ expires_at m < now) by (intros Hold; by apply Hkept).
    lia. }
  unfold cleanup_expired_messages at 1.
  set (db1 := (cleanup_expired_messages db now).1) in *.
  f_equal.
  - rewrite map_filter_id; [by destruct db1 |].
    intros i m Hm. simpl. by eapply Hnone.
  - apply (f_equal Z.of_nat (y := 0%nat)).
    apply map_size_empty_iff, map_empty_filter_2.
    intros i m Hm. simpl. by eapply Hnone.
Qed.

Lemma cleanup_expired_messages_twice_sample :
  cleanup_expired_messages (cleanup_expired_messages Samples.db1 500).1 600
  = ((cleanup_expired_messages Samples.db1 500).1, 0) /\
  (cleanup_expired_messages Samples.db1 500).2 = 1.
Proof.
  split; [| reflexivity].
  apply (cleanup_expired_messages_twice Samples.db1 500 600).
  intros i m Hm Hpin [Hlo Hhi].
  unfold Samples.db1 in Hm. simpl in Hm.
  repeat (apply lookup_insert_Some in Hm as [[_ <-] | [_ Hm]];
          [simpl in *; lia |]).
  rewrite lookup_empty in Hm. discriminate.
Defined.

(** *** Pinning *)

Lemma toggle_message_pin_Ok db (mid op : uuid) db' (r : option bool) :
  toggle_message_pin db mid op = Ok (db', r) ->
  exists m,
    messages_v2 db !! mid = Some m /\
    db' = with_messages db
            (<[mid := set_pinned (sql_not (is_pinned m)) m]> (messages_v2 db)) /\
    r = sql_not (is_pinned m).
Proof.
  unfold toggle_message_pin. intros H.
  destruct (holds _); [discriminate |].
  destruct (messages_v2 db !! mid) as [m|]; [| discriminate].
  apply bind_Ok in H as ([] & _ & H). result_simpl.
  injection H as <- <-. by exists m.
Qed.

(** C6, as the store has it. [toggle_message_pin] takes no requested value:
    a successful call negates the flag the message had, stores that and
    returns it, leaving every other message and table alone. The outcome is
    a given boolean [p] exactly when the flag was the opposite of [p]. *)
Theorem toggle_message_pin_negates db (mid op : uuid) db' (r : option bool) :
  toggle_message_pin db mid op = Ok (db', r) ->
  exists m,
    messages_v2 db !! mid = Some m /\
    messages_v2 db' !! mid = Some (set_pinned (sql_not (is_pinned m)) m) /\
    r = sql_not (is_pinned m) /\
    (forall p : bool, r = Some p <-> is_pinned m = Some (negb p)) /\
    (forall mid' : uuid, mid' <> mid ->
       messages_v2 db' !! mid' = messages_v2 db !! mid') /\
    users_v2 db' = users_v2 db /\ groups db' = groups db /\
    app_settings db' = app_settings db.
Proof.
  intros (m & Hm & -> & ->)%toggle_message_pin_Ok.
  exists m. simpl. rewrite lookup_insert_eq.
  do 3 (split; [done |]).
  split.
  { intros p. destruct (is_pinned m) as [[]|], p; simpl; intuition congruence. }
  split; [| done].
  intros mid' Hne. by rewrite lookup_insert_ne.
Qed.

Lemma toggle_message_pin_negates_sample :
  match toggle_message_pin Samples.db1 10%N 1%N with
  | Ok (db', r) =>
      exists m,
        messages_v2 Samples.db1 !! 10%N = Some m /\
        messages_v2 db' !! 10%N = Some (set_pinned (sql_not (is_pinned m)) m) /\
        r = sql_not (is_pinned m) /\
        (forall p : bool, r = Some p <-> is_pinned m = Some (negb p)) /\
        (forall mid' : uuid, mid' <> 10%N ->
           messages_v2 db' !! mid' = messages_v2 Samples.db1 !! mid') /\
        users_v2 db' = users_v2 Samples.db1 /\
        groups db' = groups Samples.db1 /\
        app_settings db' = app_settings Samples.db1
  | Raise _ => False
  end.
Proof.
  destruct (toggle_message_pin Samples.db1 10%N 1%N) as [[db' r]|e] eqn:E.
  - exact (toggle_message_pin_negates _ _ _ _ _ E).
  - vm_compute in E. discriminate E.
Defined.

(** An operator's call on a pinned message succeeds, leaves it unpinned and
    returns false: a request to pin ([p] true) is not what the message ends
    with. *)
Lemma toggle_message_pin_pinned_request :
  match toggle_message_pin Samples.db1 10%N 1%N with
  | Ok (db', r) =>
      is_pinned <$> messages_v2 Samples.db1 !! 10%N = Some (Some true) /\
      ~ (is_pinned <$> messages_v2 db' !! 10%N = Some (Some true)
         /\ r = Some true)
  | Raise _ => False
  end.
Proof.
  vm_compute. split; [reflexivity |]. intros [_ H]. discriminate H.
Qed.

Lemma toggle_message_pin_non_operator db (mid op : uuid) (u : user_row) :
  users_v2 db !! op = Some u -> u_role u <> operator ->
  toggle_message_pin db mid op
  = Raise (RaiseException "Only operators can pin/unpin messages").
Proof.
  intros Hu Hrole. unfold toggle_message_pin. rewrite Hu. simpl.
  by rewrite bool_decide_eq_false_2.
Qed.

Lemma toggle_message_pin_not_found db (mid op : uuid) (u : user_row) :
  users_v2 db !! op = Some u -> u_role u = operator ->
  messages_v2 db !! mid = None ->
  toggle_message_pin db mid op = Raise (RaiseException "Message not found").
Proof.
  intros Hu Hrole Hm. unfold toggle_message_pin. rewrite Hu, Hm. simpl.
  by rewrite bool_decide_eq_true_2.
Qed.

(** C7, where the store departs from it. A caller whose id is no row of
    [users_v2] has a NULL role, the test [operator_role != 'operator'] is
    then NULL and the exception is not raised: the call goes on to toggle
    the pin like an operator's. *)
Theorem toggle_message_pin_unknown_caller db (mid op : uuid) m :
  users_v2 db !! op = None ->
  messages_v2 db !! mid = Some m ->
  check_constraints (set_pinned (sql_not (is_pinned m)) m) = Ok tt ->
  toggle_message_pin db mid op
  = Ok (with_messages db
          (<[mid := set_pinned (sql_not (is_pinned m)) m]> (messages_v2 db)),
        sql_not (is_pinned m)).
Proof.
  intros Hu Hm Hchk. unfold toggle_message_pin.
  rewrite Hu, Hm. simpl. by rewrite Hchk.
Qed.

Lemma toggle_message_pin_unknown_caller_sample :
  users_v2 Samples.db1 !! 99%N = None /\
  toggle_message_pin Samples.db1 10%N 99%N
  = Ok (with_messages Samples.db1
          (<[10%N := Samples.msg 1 operator 0 100 (Some false)]>
             (messages_v2 Samples.db1)),
        Some false).
Proof.
  split; [reflexivity |].
  apply (toggle_message_pin_unknown_caller Samples.db1 10%N 99%N
           (Samples.msg 1 operator 0 100 (Some true)));
    reflexivity.
Defined.

End StoreFacts.

(** * Properties of the retention setting *)

Section HybridFacts.
Import Store Hybrid.

Lemma update_setting_frame (db : database) (auth_uid : option uuid)
    (key value : string) (by_user : uuid) (at_time : timestamp) (db' : database) :
  update_setting db auth_uid key value by_user at_time = Ok db' ->
  messages_v2 db' = messages_v2 db /\
  users_v2 db' = users_v2 db /\
  groups db' = groups db /\
  (forall k : string, k <> key -> app_settings db' !! k = app_settings db !! k) /\
  dom (app_settings db') = dom (app_settings db).
Proof.
  unfold update_setting. intros H.
  destruct (app_settings db !! key) as [row|] eqn:Hrow;
    [destruct (may_modify_settings db auth_uid) |].
  - apply bind_Ok in H as ([] & _ & H). result_simpl. injection H as <-.
    simpl. do 3 (split; [done |]). split.
    + intros k Hk. by rewrite lookup_insert_ne.
    + apply dom_insert_lookup_L. eauto.
  - result_simpl. by injection H as <-.
  - result_simpl. by injection H as <-.
Qed.

(** C10. Whatever the outcome, [updateMessageRetentionHours] leaves the
    messages as they are, each with the [expires_at] and the other fields it
    had; of [app_settings] only the row of default_message_retention_hours
    can differ, and no row is added or removed. *)
Theorem updateMessageRetentionHours_frame (db : database)
    (auth_uid : option uuid) (client_now : timestamp) (h : Z)
    (operatorUserId : uuid) :
  messages_v2 (updateMessageRetentionHours db auth_uid client_now h
                 operatorUserId).1 = messages_v2 db /\
  (forall (i : uuid) (m : message_row),
     messages_v2 db !! i = Some m ->
     expires_at <$> messages_v2 (updateMessageRetentionHours db auth_uid
                                   client_now h operatorUserId).1 !! i
     = Some (expires_at m)) /\
  users_v2 (updateMessageRetentionHours db auth_uid client_now h
              operatorUserId).1 = users_v2 db /\
  groups (updateMessageRetentionHours db auth_uid client_now h
            operatorUserId).1 = groups db /\
  (forall k : string, k <> retention_key ->
     app_settings (updateMessageRetentionHours db auth_uid client_now h
                     operatorUserId).1 !! k = app_settings db !! k) /\
  dom (app_settings (updateMessageRetentionHours db auth_uid client_now h
                       operatorUserId).1) = dom (app_settings db).
Proof.
  unfold updateMessageRetentionHours.
  destruct (update_setting _ _ _ _ _ _) as [db'|e] eqn:E; simpl.
  - apply update_setting_frame in E as (Hm & Hu & Hg & Hs & Hd).
    rewrite Hm. split; [done |]. split; [| done].
    intros i m ->. done.
  - split; [done |]. split; [| done]. intros i m ->. done.
Qed.

(** The update does reach the setting: an operator's new value is what the
    resolver reads afterwards. *)
Example updateMessageRetentionHours_takes_effect :
  let r := updateMessageRetentionHours Samples.db1 (Some 1%N) 5000 72 1%N in
  r.2 = true /\
  get_message_retention_hours r.1 = Ok 72 /\
  get_message_retention_hours Samples.db1 = Ok 48.
Proof. vm_compute. done. Qed.

End HybridFacts.

(** * Properties of the client's view *)

Section ViewFacts.
Import Client.

Implicit Types (prev l : list RealtimeMessage) (message x y : RealtimeMessage).

Lemma has_id_true (i : string) l :
  has_id i l = true <-> exists m, m ∈ l /\ id m = i.
Proof.
  unfold has_id. rewrite existsb_exists. split.
  - intros (m & Hin & Hid). exists m. split; [by apply list_elem_of_In |].
    by apply bool_decide_eq_true in Hid.
  - intros (m & Hin & Hid). exists m. split; [by apply list_elem_of_In |].
    by apply bool_decide_eq_true.
Qed.

Lemma has_id_false (i : string) l :
  has_id i l = false <-> forall m, m ∈ l -> id m <> i.
Proof.
  rewrite <- not_true_iff_false, has_id_true. split.
  - intros Hnone m Hin Hid. apply Hnone. by exists m.
  - intros Hall (m & Hin & Hid). by apply (Hall m).
Qed.

(** **** The sort *)

Lemma insert_by_created_at_perm x l : insert_by_created_at x l ≡ₚ x :: l.
Proof.
  induction l as [|y l IH]; simpl; [done |].
  case_bool_decide; [done |].
  rewrite IH. apply Permutation_swap.
Qed.

Lemma sort_by_created_at_perm l : sort_by_created_at l ≡ₚ l.
Proof.
  induction l as [|x l IH]; simpl; [done |].
  by rewrite insert_by_created_at_perm, IH.
Qed.

Lemma insert_by_created_at_hd x y l :
  earlier y x -> HdRel earlier y l -> HdRel earlier y (insert_by_created_at x l).
Proof.
  intros Hyx Hyl. destruct l as [|z l]; simpl; [by constructor |].
  case_bool_decide; constructor; [done |]. by inversion Hyl.
Qed.

Lemma insert_by_created_at_sorted x l :
  Sorted earlier l -> Sorted earlier (insert_by_created_at x l).
Proof.
  induction 1 as [|y l Hl IH Hhd]; simpl.
  - repeat constructor.
  - case_bool_decide as Hxy.
    + constructor; [by constructor |]. by constructor.
    + constructor; [exact IH |].
      apply insert_by_created_at_hd; [| done]. unfold earlier. lia.
Qed.

Lemma sort_by_created_at_sorted l : Sorted earlier (sort_by_created_at l).
Proof.
  induction l as [|x l IH]; simpl; [constructor |].
  by apply insert_by_created_at_sorted.
Qed.

(** Entries with the same timestamp keep the order they had. *)
Lemma insert_by_created_at_stable (k : Z) x l :
  filter (fun m => created_at m = k) (insert_by_created_at x l)
  = filter (fun m => created_at m = k) (x :: l).
Proof.
  induction l as [|y l IH]; simpl; [done |].
  case_bool_decide as Hxy; [done |].
  rewrite !filter_cons in *.
  repeat case_decide; simplify_eq; try lia; by rewrite ?IH.
Qed.

Lemma sort_by_created_at_stable (k : Z) l :
  filter (fun m => created_at m = k) (sort_by_created_at l)
  = filter (fun m => created_at m = k) l.
Proof.
  induction l as [|x l IH]; simpl; [done |].
  rewrite insert_by_created_at_stable, !filter_cons, IH. done.
Qed.

Example sort_by_created_at_sample :
  id <$> sort_by_created_at
           [ViewSamples.entry "m-3" "c" 30; ViewSamples.entry "m-1" "a" 10;
            ViewSamples.entry "m-2" "b" 30; ViewSamples.entry "m-0" "z" 20]
  = ["m-1"; "m-0"; "m-3"; "m-2"].
Proof. reflexivity. Qed.

(** **** Receiving a message *)

Lemma list_find_id_None (i : string) l :
  list_find (fun m => id m = i) l = None <-> has_id i l = false.
Proof.
  rewrite list_find_None, has_id_false, Forall_forall. done.
Qed.

Lemma handleNewMessage_known prev message :
  has_id (id message) prev = true -> handleNewMessage prev message = prev.
Proof. unfold handleNewMessage. by intros ->. Qed.

Lemma handleNewMessage_new prev message :
  has_id (id message) prev = false ->
  handleNewMessage prev message ≡ₚ prev ++ [message] /\
  Sorted earlier (handleNewMessage prev message).
Proof.
  unfold handleNewMessage. intros ->. split.
  - apply sort_by_created_at_perm.
  - apply sort_by_created_at_sorted.
Qed.

Lemma addMessage_known (channels : gmap string (list RealtimeMessage))
    (channelName : string) message :
  has_id (id message) (default [] (channels !! channelName)) = true ->
  addMessage channels channelName message = channels.
Proof.
  intros Hknown. unfold addMessage.
  destruct (channels !! channelName) as [l|] eqn:Hl; [| discriminate].
  rewrite bool_decide_eq_true_2 by eauto. rewrite Hl. simpl in *.
  destruct (list_find _ l) as [[n m]|] eqn:Hfind; [done |].
  apply list_find_id_None in Hfind. congruence.
Qed.

Lemma addMessage_new (channels : gmap string (list RealtimeMessage))
    (channelName : string) message :
  has_id (id message) (default [] (channels !! channelName)) = false ->
  addMessage channels channelName message
  = <[channelName :=
        sort_by_created_at (default [] (channels !! channelName) ++ [message])]>
      channels.
Proof.
  intros Hnew. unfold addMessage.
  destruct (channels !! channelName) as [l|] eqn:Hl; simpl in *.
  - rewrite Hl. simpl.
    apply list_find_id_None in Hnew. by rewrite Hnew.
  - rewrite lookup_insert_eq. simpl. by rewrite insert_insert_eq.
Qed.

Lemma DirectChat_onInsert_known prev message (n : nat) (msg : RealtimeMessage) :
  has_id (id message) prev = true ->
  prev !! n = Some msg ->
  DirectChat_onInsert prev message !! n
  = Some (if bool_decide (id msg = id message) || is_temp_for message msg
          then message else msg).
Proof.
  unfold DirectChat_onInsert. intros -> Hn. simpl.
  rewrite list_lookup_fmap, Hn. simpl.
  destruct (is_temp_for message msg); [by rewrite orb_true_r |].
  by rewrite orb_false_r.
Qed.

(** C5, as the clients have it. On a message whose id the view already
    holds, [handleNewMessage] and [addMessage] keep the view as it is (the
    held entry stays), while the INSERT handler of [DirectChat] puts the
    received copy in the place of every entry of that id (and of the sender's
    matching temporary entries). On a message of a new id,
    [handleNewMessage] and [addMessage] add it and sort the view ascending
    by [created_at], while [DirectChat] appends it at the end as it comes. *)
Theorem receive_merges_by_id prev message
    (channels : gmap string (list RealtimeMessage)) (channelName : string) :
  (has_id (id message) prev = true -> handleNewMessage prev message = prev) /\
  (has_id (id message) prev = false ->
     handleNewMessage prev message ≡ₚ prev ++ [message] /\
     Sorted earlier (handleNewMessage prev message)) /\
  (has_id (id message) (default [] (channels !! channelName)) = true ->
     addMessage channels channelName message = channels) /\
  (has_id (id message) (default [] (channels !! channelName)) = false ->
     exists l',
       addMessage channels channelName message !! channelName = Some l' /\
       l' ≡ₚ default [] (channels !! channelName) ++ [message] /\
       Sorted earlier l' /\
       forall other : string, other <> channelName ->
         addMessage channels channelName message !! other = channels !! other) /\
  (has_id (id message) prev = true ->
     List.length (DirectChat_onInsert prev message) = List.length prev /\
     forall (n : nat) (msg : RealtimeMessage),
       prev !! n = Some msg ->
       DirectChat_onInsert prev message !! n
       = Some (if bool_decide (id msg = id message) || is_temp_for message msg
               then message else msg)) /\
  (has_id (id message) prev = false ->
     DirectChat_onInsert prev message = (prev ++ [message])%list).
Proof.
  split; [apply handleNewMessage_known |].
  split; [apply handleNewMessage_new |].
  split; [apply addMessage_known |].
  split.
  { intros Hnew. rewrite (addMessage_new _ _ _ Hnew).
    eexists. rewrite lookup_insert_eq. split; [done |].
    split; [apply sort_by_created_at_perm |].
    split; [apply sort_by_created_at_sorted |].
    intros other Hne. by rewrite lookup_insert_ne. }
  split.
  - intros Hknown. split.
    + unfold DirectChat_onInsert. rewrite Hknown. simpl. apply length_fmap.
    + intros n msg. by apply DirectChat_onInsert_known.
  - unfold DirectChat_onInsert. by intros ->.
Qed.

End ViewFacts.

Example handleNewMessage_out_of_order :
  Client.id <$> Client.handleNewMessage
                  [ViewSamples.entry "m-1" "a" 10; ViewSamples.entry "m-2" "b" 30]
                  (ViewSamples.entry "m-3" "c" 20)
  = ["m-1"; "m-3"; "m-2"].
Proof. reflexivity. Qed.

Example DirectChat_onInsert_echo_of_own_send :
  Client.DirectChat_onInsert
    [ViewSamples.entry "m-1" "a" 10; ViewSamples.entry "m-2" "first text" 30]
    (ViewSamples.entry "m-2" "stored text" 31)
  = [ViewSamples.entry "m-1" "a" 10; ViewSamples.entry "m-2" "stored text" 31].
Proof. reflexivity. Qed.

(** [handleNewMessage] drops a received copy whose id is already shown, so
    the held entry is not replaced; and [DirectChat] leaves a late arrival
    out of order. *)
Lemma receive_keeps_held_entry :
  let held := ViewSamples.entry "m-1" "first text" 10 in
  let received := ViewSamples.entry "m-1" "stored text" 10 in
  let later := ViewSamples.entry "m-2" "second" 30 in
  let late := ViewSamples.entry "m-3" "third" 20 in
  Client.has_id (Client.id received) [held] = true /\
  Client.handleNewMessage [held] received = [held] /\
  (received ∉ Client.handleNewMessage [held] received) /\
  Client.has_id (Client.id late) [held; later] = false /\
  Client.DirectChat_onInsert [held; later] late = [held; later; late] /\
  ~ Sorted Client.earlier (Client.DirectChat_onInsert [held; later] late).
Proof.
  simpl. split; [reflexivity |]. split; [reflexivity |].
  split.
  { intros Hin. apply list_elem_of_singleton in Hin. discriminate Hin. }
  split; [reflexivity |]. split; [reflexivity |].
  intros Hsorted. simpl in Hsorted.
  apply Sorted_inv in Hsorted as [Htail _].
  apply Sorted_inv in Htail as [_ Hhd].
  apply HdRel_inv in Hhd. unfold Client.earlier in Hhd. simpl in Hhd. lia.
Qed.

(** ** [DirectChat]: failed sends and the periodic resync *)

Section FailedSend.
Import Client.

Variable trim : string -> string.

Implicit Types (st : chat_state).

Lemma has_id_filter_out (i : string) (l : list RealtimeMessage) :
  has_id i (filter (fun m => id m <> i) l) = false.
Proof.
  apply has_id_false. intros m Hin. by apply list_elem_of_filter in Hin as [? _].
Qed.

Lemma filter_out_absent (i : string) (l : list RealtimeMessage) :
  has_id i l = false -> filter (fun m => id m <> i) l = l.
Proof.
  rewrite has_id_false. intros Hl.
  induction l as [|x l IH]; [done |].
  rewrite filter_cons_True by (apply Hl; left).
  f_equal. apply IH. intros m Hm. apply Hl. by right.
Qed.

(** Whatever reached the view in between, settling a thrown send leaves no
    entry under the temporary id. *)
Lemma sendMessage_settle_Thrown st (tempId text : string) :
  has_id tempId (messages (sendMessage_settle st tempId text Thrown)) = false /\
  newMessage (sendMessage_settle st tempId text Thrown) = text /\
  sending (sendMessage_settle st tempId text Thrown) = false.
Proof. simpl. split; [apply has_id_filter_out | done]. Qed.

(** C8, as [DirectChat] has it. When the send throws, the optimistic entry
    is taken out of the view again: no entry carries the temporary id, the
    entries shown are those shown before the send (all of them, unchanged,
    when none had that id), and the text goes back into the input box. *)
Theorem sendMessage_failure_removes_provisional st (u : User)
    (tempSuffix : string) (now : Z) :
  trim (newMessage st) <> "" ->
  sending st = false ->
  has_id ("temp-" +:+ tempSuffix)
    (messages (sendMessage trim st (Some u) tempSuffix now Thrown)) = false /\
  messages (sendMessage trim st (Some u) tempSuffix now Thrown)
  = filter (fun m => id m <> "temp-" +:+ tempSuffix) (messages st) /\
  (has_id ("temp-" +:+ tempSuffix) (messages st) = false ->
   messages (sendMessage trim st (Some u) tempSuffix now Thrown) = messages st) /\
  newMessage (sendMessage trim st (Some u) tempSuffix now Thrown)
  = trim (newMessage st) /\
  sending (sendMessage trim st (Some u) tempSuffix now Thrown) = false.
Proof.
  intros Htext Hidle. unfold sendMessage.
  rewrite bool_decide_eq_false_2 by done. rewrite Hidle. simpl.
  assert (Hview :
    filter (fun m => id m <> "temp-" +:+ tempSuffix)
      (messages st ++
       [optimisticMessage ("temp-" +:+ tempSuffix) u (trim (newMessage st)) now])%list
    = filter (fun m => id m <> "temp-" +:+ tempSuffix) (messages st)).
  { rewrite filter_app, filter_cons_False by (simpl; tauto).
    rewrite filter_nil. apply app_nil_r. }
  rewrite Hview.
  split; [apply has_id_filter_out |].
  split; [done |].
  split; [apply filter_out_absent | done].
Qed.

End FailedSend.

Section Resync.
Import Client.

Variable isMessageExpired : Z -> bool.

Implicit Types (prev data : list RealtimeMessage).

Lemma filter_length_pos {A} (P : A -> Prop) `{forall x, Decision (P x)}
    (l : list A) :
  (0 < List.length (filter P l))%nat <-> exists x, x ∈ l /\ P x.
Proof.
  split.
  - destruct (filter P l) as [|x l'] eqn:Hf; simpl; [lia |]. intros _.
    exists x. apply and_comm, (list_elem_of_filter P). rewrite Hf. left.
  - intros (x & Hx & HP).
    assert (Hin : x ∈ filter P l) by by apply list_elem_of_filter.
    destruct (filter P l); [by apply elem_of_nil in Hin | simpl; lia].
Qed.

(** C9, as [DirectChat] has it. A resync looks only for fetched, unexpired
    entries whose id the view lacks. If there is one, the view becomes the
    fetched unexpired list as a whole; if there is none, or the fetch fails,
    the view stays as it is, entries that the store no longer has
    included. *)
Theorem DirectChat_syncInterval_outcome prev data :
  ((exists m, m ∈ filter (fun m => isMessageExpired (expires_at m) = false) data
              /\ has_id (id m) prev = false) ->
   DirectChat_syncInterval isMessageExpired prev (Some data)
   = filter (fun m => isMessageExpired (expires_at m) = false) data) /\
  ((forall m, m ∈ filter (fun m => isMessageExpired (expires_at m) = false) data
              -> has_id (id m) prev = true) ->
   DirectChat_syncInterval isMessageExpired prev (Some data) = prev) /\
  DirectChat_syncInterval isMessageExpired prev None = prev.
Proof.
  unfold DirectChat_syncInterval. split; [| split; [| done]].
  - intros Hnew. rewrite bool_decide_eq_true_2; [done |].
    by apply filter_length_pos.
  - intros Hall. rewrite bool_decide_eq_false_2; [done |].
    rewrite filter_length_pos. intros (m & Hm & Hid).
    specialize (Hall m Hm). congruence.
Qed.

End Resync.

Example DirectChat_syncInterval_finds_missed_message :
  Client.id <$> Client.DirectChat_syncInterval ViewSamples.none_expired
                  [ViewSamples.entry "m-1" "a" 10]
                  (Some [ViewSamples.entry "m-1" "a" 10;
                         ViewSamples.entry "m-2" "b" 20])
  = ["m-1"; "m-2"].
Proof. reflexivity. Qed.

Lemma sendMessage_failure_removes_provisional_sample :
  let st := Client.ChatState [ViewSamples.entry "m-1" "hello" 10] "are you there" false in
  ViewSamples.keep_text (Client.newMessage st) <> "" /\
  Client.messages
    (Client.sendMessage ViewSamples.keep_text st (Some ViewSamples.fox)
       "1700000000000-0.42" 20 Client.Thrown)
  = [ViewSamples.entry "m-1" "hello" 10] /\
  Client.newMessage
    (Client.sendMessage ViewSamples.keep_text st (Some ViewSamples.fox)
       "1700000000000-0.42" 20 Client.Thrown)
  = "are you there".
Proof.
  intros st.
  assert (Htext : ViewSamples.keep_text (Client.newMessage st) <> "")
    by discriminate.
  split; [exact Htext |].
  destruct (sendMessage_failure_removes_provisional ViewSamples.keep_text st
              ViewSamples.fox "1700000000000-0.42" 20 Htext eq_refl)
    as (_ & _ & Hsame & Hinput & _).
  split; [apply Hsame; reflexivity | exact Hinput].
Defined.

(** After a failed send the view holds no entry for the message at all,
    though the optimistic entry had been shown. *)
Lemma failed_send_leaves_no_entry :
  let st := Client.ChatState [] "are you there" false in
  let tempId := "temp-1700000000000-0.42" in
  Client.has_id tempId
    (Client.messages
       (Client.sendMessage_begin ViewSamples.keep_text st tempId ViewSamples.fox 20))
  = true /\
  Client.messages
    (Client.sendMessage ViewSamples.keep_text st (Some ViewSamples.fox)
       "1700000000000-0.42" 20 Client.Thrown) = [].
Proof. split; reflexivity. Qed.

(** A resync that finds nothing new keeps an entry that the store no longer
    has, and a resync that finds something new drops a pending entry. *)
Lemma resync_view_differs_from_store :
  let a := ViewSamples.entry "m-1" "one" 10 in
  let b := ViewSamples.entry "m-2" "two" 20 in
  let pending := ViewSamples.entry "temp-1700000000000-0.42" "three" 30 in
  Client.DirectChat_syncInterval ViewSamples.none_expired [a; b] (Some [a])
  = [a; b] /\
  Client.id <$> Client.DirectChat_syncInterval ViewSamples.none_expired [a; b]
                  (Some [a])
  <> Client.id <$> [a] /\
  Client.DirectChat_syncInterval ViewSamples.none_expired [a; pending]
    (Some [a; b]) = [a; b].
Proof. split; [reflexivity |]. split; [discriminate | reflexivity]. Qed.

(** * Further properties of the store *)

Section StoreBehaviour.
Import Store.

Implicit Types (db : database) (now : timestamp) (m : message_row).

(** The row that [send_message_v2_guest] builds. *)
Local Abbreviation new_row user_data now uid text mt gid h :=
  {| user_id := uid; username := u_username user_data;
     display_name := u_display_name user_data; content := text;
     message_type := mt; group_id := gid;
     user_role_snapshot := u_role user_data; created_at := now;
     expires_at := now + hours h; is_pinned := Some false |}.

Lemma check_constraints_Ok m :
  check_constraints m = Ok tt <->
  ((message_type m = "direct" /\ group_id m = None) \/
   (message_type m = "group" /\ group_id m <> None)) /\
  (is_pinned m = Some true -> user_role_snapshot m = operator).
Proof.
  unfold check_constraints, valid_message_type, valid_group_message,
    valid_pinned_message.
  destruct (is_pinned m) as [[]|]; simpl;
    repeat case_bool_decide; simpl; intuition congruence.
Qed.

Lemma send_message_v2_guest_Ok db now (new_id uid : uuid) (text mt : string)
    (gid : option uuid) (custom : option Z) db' (mid : uuid) :
  send_message_v2_guest db now new_id uid text mt gid custom = Ok (db', mid) ->
  exists user_data h,
    users_v2 db !! uid = Some user_data /\
    resolve_retention_hours db mt gid custom = Ok h /\
    mid = new_id /\
    messages_v2 db !! new_id = None /\
    check_constraints (new_row user_data now uid text mt gid h) = Ok tt /\
    (forall g : uuid, gid = Some g -> is_Some (groups db !! g)) /\
    db' = update_user_last_active_v2
            (update_user_last_active_v2
               (with_messages db
                  (<[new_id := new_row user_data now uid text mt gid h]>
                     (messages_v2 db))) now uid) now uid.
Proof.
  unfold send_message_v2_guest. intros H.
  destruct (users_v2 db !! uid) as [user_data|]; [| discriminate].
  apply bind_Ok in H as (ttl & Httl & H).
  apply bind_Ok in H as (db1 & Hins & H).
  result_simpl. injection H as <- <-.
  unfold calculate_message_ttl in Httl.
  apply bind_Ok in Httl as (h & Hh & Httl).
  result_simpl. injection Httl as <-.
  exists user_data, h. do 3 (split; [done |]).
  unfold insert_message in Hins.
  apply bind_Ok in Hins as ([] & Hchk & Hins).
  apply bind_Ok in Hins as ([] & Hfresh%guard_ok_Ok & Hins).
  apply bind_Ok in Hins as ([] & _ & Hins).
  apply bind_Ok in Hins as ([] & Hgroup%guard_ok_Ok & Hins).
  result_simpl. injection Hins as <-.
  apply bool_decide_eq_true in Hfresh.
  split; [done |]. split; [done |]. split; [| done].
  intros g ->. by apply bool_decide_eq_true in Hgroup.
Qed.



(** What a successful append changes: it stores one new row under the drawn
    key, carrying the author's name and role as they are at that moment and
    unpinned; it marks the author active at [now]; every other message and
    user, the groups and the settings stay as they were. *)
Theorem send_message_v2_guest_effect db now (new_id uid : uuid)
    (text mt : string) (gid : option uuid) (custom : option Z)
    db' (mid : uuid) :
  send_message_v2_guest db now new_id uid text mt gid custom = Ok (db', mid) ->
  mid = new_id /\
  messages_v2 db !! new_id = None /\
  (exists m user_data,
     messages_v2 db' !! new_id = Some m /\
     users_v2 db !! uid = Some user_data /\
     user_id m = uid /\ content m = text /\
     message_type m = mt /\ group_id m = gid /\
     username m = u_username user_data /\
     display_name m = u_display_name user_data /\
     user_role_snapshot m = u_role user_data /\
     is_pinned m = Some false /\
     users_v2 db' !! uid = Some (touch_user now user_data)) /\
  (forall i : uuid, i <> new_id -> messages_v2 db' !! i = messages_v2 db !! i) /\
  (forall u : uuid, u <> uid -> users_v2 db' !! u = users_v2 db !! u) /\
  groups db' = groups db /\
  app_settings db' = app_settings db.
Proof.
  intros (user_data & h & Hu & Hh & -> & Hfresh & _ & _ & ->)
           %send_message_v2_guest_Ok.
  split; [done |]. split; [done |]. simpl. split.
  - eexists _, user_data. rewrite lookup_insert_eq.
    do 10 (split; [done |]).
    rewrite !lookup_alter_eq, Hu. done.
  - split; [intros i Hi; by rewrite lookup_insert_ne |].
    split; [| done].
    intros u Hne. by rewrite !lookup_alter_ne.
Qed.

Lemma send_message_v2_guest_effect_sample :
  match send_message_v2_guest Samples.db1 1000 5%N 2%N "hi" "direct" None None
  with
  | Ok (db', mid) =>
      mid = 5%N /\
      messages_v2 Samples.db1 !! 5%N = None /\
      (exists m user_data,
         messages_v2 db' !! 5%N = Some m /\
         users_v2 Samples.db1 !! 2%N = Some user_data /\
         user_id m = 2%N /\ content m = "hi" /\
         message_type m = "direct" /\ group_id m = None /\
         username m = u_username user_data /\
         display_name m = u_display_name user_data /\
         user_role_snapshot m = u_role user_data /\
         is_pinned m = Some false /\
         users_v2 db' !! 2%N = Some (touch_user 1000 user_data)) /\
      (forall i : uuid, i <> 5%N ->
         messages_v2 db' !! i = messages_v2 Samples.db1 !! i) /\
      (forall u : uuid, u <> 2%N -> users_v2 db' !! u = users_v2 Samples.db1 !! u) /\
      groups db' = groups Samples.db1 /\
      app_settings db' = app_settings Samples.db1
  | Raise _ => False
  end.
Proof.
  destruct (send_message_v2_guest Samples.db1 1000 5%N 2%N "hi" "direct" None
              None) as [[db' mid]|e] eqn:E.
  - exact (send_message_v2_guest_effect _ _ _ _ _ _ _ _ _ _ E).
  - vm_compute in E. discriminate E.
Defined.

(** A group's timer counts seconds, the resolver whole hours: for an active
    group the retention is the timer cut down to hours, so it never exceeds
    the timer, falls short of it by less than an hour, and is nothing at all
    for a timer below one hour. *)
Theorem calculate_message_ttl_group_timer db now (g : uuid) (row : group_row)
    (t : Z) :
  groups db !! g = Some row ->
  is_active row = Some true ->
  message_deletion_timer row = Some t ->
  0 <= t ->
  exists ttl,
    calculate_message_ttl db now "group" (Some g) None = Ok ttl /\
    ttl = now + hours (t `quot` 3600) /\
    now + (t - 3600) * 1000000 < ttl <= now + t * 1000000 /\
    (t < 3600 -> ttl = now).
Proof.
  intros Hrow Hactive Htimer Ht.
  unfold calculate_message_ttl, resolve_retention_hours, group_retention_hours.
  rewrite Hrow. simpl. rewrite Hactive, Htimer. simpl.
  eexists. split; [reflexivity |]. split; [reflexivity |].
  unfold hours.
  pose proof (Z.quot_rem' t 3600) as Hqr.
  pose proof (Z.rem_bound_pos t 3600 Ht ltac:(lia)) as Hrem.
  split; [lia |].
  intros Hsmall. rewrite Z.quot_small by lia. lia.
Qed.

Lemma calculate_message_ttl_group_timer_half_hour :
  exists ttl,
    calculate_message_ttl Samples.db0 1000 "group" (Some 7%N) None = Ok ttl /\
    ttl = 1000 + hours (1800 `quot` 3600) /\
    1000 + (1800 - 3600) * 1000000 < ttl <= 1000 + 1800 * 1000000 /\
    (1800 < 3600 -> ttl = 1000).
Proof.
  apply (calculate_message_ttl_group_timer Samples.db0 1000 7%N
           (GroupRow (Some 1800) (Some true)) 1800);
    [reflexivity | reflexivity | reflexivity | lia].
Defined.

(** **** A message's life between append and sweep *)

(** A message just appended stays through every sweep up to its expiry and
    is removed by any later sweep. *)
Theorem send_then_cleanup db now (new_id uid : uuid) (text mt : string)
    (gid : option uuid) (custom : option Z) db' (mid : uuid) (h : Z)
    (sweep_time : timestamp) :
  send_message_v2_guest db now new_id uid text mt gid custom = Ok (db', mid) ->
  resolve_retention_hours db mt gid custom = Ok h ->
  (sweep_time <= now + hours h ->
   messages_v2 (cleanup_expired_messages db' sweep_time).1 !! mid
   = messages_v2 db' !! mid /\
   is_Some (messages_v2 db' !! mid)) /\
  (now + hours h < sweep_time ->
   messages_v2 (cleanup_expired_messages db' sweep_time).1 !! mid = None).
Proof.
  intros (user_data & h' & Hu & Hh' & -> & Hfresh & _ & _ & ->)
           %send_message_v2_guest_Ok Hh.
  assert (h' = h) as -> by congruence.
  split.
  - intros Hearly. simpl. rewrite lookup_insert_eq. split; [| eauto].
    apply map_lookup_filter_Some. rewrite lookup_insert_eq.
    split; [done |]. simpl. rewrite expired_unpinned_true. simpl. lia.
  - intros Hlate. simpl. apply map_lookup_filter_None. right.
    intros m. rewrite lookup_insert_eq. intros [= <-]. simpl.
    rewrite expired_unpinned_true. simpl. intros Hkeep. by apply Hkeep.
Qed.

Lemma send_then_cleanup_sample :
  match send_message_v2_guest Samples.db0 1000 5%N 2%N "hi" "direct" None (Some 2)
  with
  | Ok (db', mid) =>
      (1000 + hours 1 <= 1000 + hours 2 ->
       messages_v2 (cleanup_expired_messages db' (1000 + hours 1)).1 !! mid
       = messages_v2 db' !! mid /\
       is_Some (messages_v2 db' !! mid)) /\
      (1000 + hours 2 < 1000 + hours 1 ->
       messages_v2 (cleanup_expired_messages db' (1000 + hours 1)).1 !! mid
       = None)
  | Raise _ => False
  end.
Proof.
  destruct (send_message_v2_guest Samples.db0 1000 5%N 2%N "hi" "direct" None
              (Some 2)) as [[db' mid]|e] eqn:E.
  - exact (send_then_cleanup _ _ _ _ _ _ _ _ _ _ 2 (1000 + hours 1) E eq_refl).
  - vm_compute in E. discriminate E.
Defined.

(** **** Pinning *)

Lemma set_pinned_twice (v w : option bool) m :
  set_pinned w (set_pinned v m) = set_pinned w m.
Proof. reflexivity. Qed.

Lemma set_pinned_same m : set_pinned (is_pinned m) m = m.
Proof. by destruct m. Qed.

Lemma sql_not_involutive (a : option bool) : sql_not (sql_not a) = a.
Proof. by destruct a as [[]|]. Qed.

(** Two successful toggles of the same message in a row give back the
    database as it was, and the second returns the flag the message had. *)
Theorem toggle_message_pin_twice db (mid op op' : uuid) db1 db2
    (r1 r2 : option bool) :
  toggle_message_pin db mid op = Ok (db1, r1) ->
  toggle_message_pin db1 mid op' = Ok (db2, r2) ->
  db2 = db /\ r2 = sql_not r1 /\
  (is_pinned <$> messages_v2 db !! mid) = Some r2.
Proof.
  intros (m & Hm & -> & ->)%toggle_message_pin_Ok
         (m' & Hm' & -> & ->)%toggle_message_pin_Ok.
  simpl in Hm'. rewrite lookup_insert_eq in Hm'. injection Hm' as <-.
  simpl. rewrite sql_not_involutive, set_pinned_twice, set_pinned_same.
  rewrite insert_insert_eq, (insert_id _ _ _ Hm), Hm.
  split; [by destruct db |]. done.
Qed.

Lemma toggle_message_pin_twice_sample :
  match toggle_message_pin Samples.db1 10%N 1%N with
  | Ok (db1, r1) =>
      match toggle_message_pin db1 10%N 1%N with
      | Ok (db2, r2) =>
          db2 = Samples.db1 /\ r2 = sql_not r1 /\
          (is_pinned <$> messages_v2 Samples.db1 !! 10%N) = Some r2
      | Raise _ => False
      end
  | Raise _ => False
  end.
Proof.
  destruct (toggle_message_pin Samples.db1 10%N 1%N) as [[db1 r1]|e] eqn:E1;
    [| vm_compute in E1; discriminate E1].
  destruct (toggle_message_pin db1 10%N 1%N) as [[db2 r2]|e] eqn:E2.
  - exact (toggle_message_pin_twice _ _ _ _ _ _ _ _ E1 E2).
  - vm_compute in E1. injection E1 as <- <-. vm_compute in E2. discriminate E2.
Defined.

(** No call pins a message that was written by someone who was not an
    operator then: a toggle that would is refused by the table. *)
Theorem toggle_message_pin_only_operator_messages db (mid op : uuid) db'
    (r : option bool) m :
  toggle_message_pin db mid op = Ok (db', r) ->
  messages_v2 db !! mid = Some m ->
  r = Some true ->
  user_role_snapshot m = operator.
Proof.
  unfold toggle_message_pin. intros H Hm Hr.
  destruct (holds _); [discriminate |].
  rewrite Hm in H.
  apply bind_Ok in H as ([] & Hchk & H). result_simpl.
  injection H as <- <-.
  apply check_constraints_Ok in Hchk as [_ Hpin]. simpl in Hpin.
  by apply Hpin.
Qed.

Lemma toggle_message_pin_only_operator_messages_sample :
  match toggle_message_pin
          (with_messages Samples.db0
             (<[10%N := Samples.msg 1 operator 0 100 (Some false)]> ∅))
          10%N 1%N with
  | Ok (db', r) => r = Some true /\
                   user_role_snapshot (Samples.msg 1 operator 0 100 (Some false))
                   = operator
  | Raise _ => False
  end.
Proof.
  destruct (toggle_message_pin _ 10%N 1%N) as [[db' r]|e] eqn:E.
  - assert (Hr : r = Some true) by (vm_compute in E; congruence).
    split; [exact Hr |].
    exact (toggle_message_pin_only_operator_messages _ _ _ _ _ _ E eq_refl Hr).
  - vm_compute in E. discriminate E.
Defined.

(** An operator's attempt to pin a guest's message fails on the constraint
    and changes nothing. *)
Example toggle_message_pin_guest_message :
  toggle_message_pin Samples.db1 11%N 1%N
  = Raise (CheckViolation "valid_pinned_message").
Proof. reflexivity. Qed.

(** A toggle settles what the next sweep does with the message: pinned by
    it, the message stays whatever the time; unpinned by it, the message
    goes as soon as the sweep comes after its expiry. *)
Theorem toggle_then_cleanup db (mid op : uuid) db' (r : option bool)
    (sweep_time : timestamp) :
  toggle_message_pin db mid op = Ok (db', r) ->
  (r = Some true ->
   messages_v2 (cleanup_expired_messages db' sweep_time).1 !! mid
   = messages_v2 db' !! mid) /\
  (r = Some false ->
   forall m, messages_v2 db !! mid = Some m -> expires_at m < sweep_time ->
   messages_v2 (cleanup_expired_messages db' sweep_time).1 !! mid = None).
Proof.
  intros (m & Hm & -> & ->)%toggle_message_pin_Ok. simpl. split.
  - intros Hr. rewrite lookup_insert_eq.
    apply map_lookup_filter_Some. rewrite lookup_insert_eq.
    split; [done |]. simpl. rewrite expired_unpinned_true. simpl.
    rewrite Hr. intros [_ ?]. discriminate.
  - intros Hr m' Hm' Hlate. assert (m' = m) as -> by congruence.
    apply map_lookup_filter_None. right. intros x.
    rewrite lookup_insert_eq. intros [= <-]. simpl.
    rewrite expired_unpinned_true. simpl. intros Hkeep. by apply Hkeep.
Qed.

Lemma toggle_then_cleanup_sample :
  match toggle_message_pin Samples.db1 10%N 1%N with
  | Ok (db', r) =>
      (r = Some true ->
       messages_v2 (cleanup_expired_messages db' 500).1 !! 10%N
       = messages_v2 db' !! 10%N) /\
      (r = Some false ->
       forall m, messages_v2 Samples.db1 !! 10%N = Some m ->
                 expires_at m < 500 ->
       messages_v2 (cleanup_expired_messages db' 500).1 !! 10%N = None)
  | Raise _ => False
  end.
Proof.
  destruct (toggle_message_pin Samples.db1 10%N 1%N) as [[db' r]|e] eqn:E.
  - exact (toggle_then_cleanup _ _ _ _ _ 500 E).
  - vm_compute in E. discriminate E.
Defined.

(** **** Sweeps in a row *)

(** Sweeping at [now] and again at a later [now'] leaves the store that one
    sweep at [now'] leaves, and the two counts add up to its count. *)
Theorem cleanup_expired_messages_compose db now now' :
  now <= now' ->
  (cleanup_expired_messages (cleanup_expired_messages db now).1 now').1
  = (cleanup_expired_messages db now').1 /\
  (cleanup_expired_messages db now).2
  + (cleanup_expired_messages (cleanup_expired_messages db now).1 now').2
  = (cleanup_expired_messages db now').2.
Proof.
  intros Hle.
  assert (Hstore :
    (cleanup_expired_messages (cleanup_expired_messages db now).1 now').1
    = (cleanup_expired_messages db now').1).
  { simpl. unfold with_messages. simpl. f_equal.
    rewrite map_filter_filter. apply map_filter_ext.
    intros i m _. simpl. split; [by intros [? _] |].
    intros Hkeep. split; [done |].
    rewrite expired_unpinned_true in *. intros [Hold Hpin].
    apply Hkeep. split; [lia | done]. }
  split; [exact Hstore |].
  rewrite (cleanup_count db now), (cleanup_count db now'),
    (cleanup_count (cleanup_expired_messages db now).1 now'), Hstore.
  lia.
Qed.

Lemma cleanup_expired_messages_compose_sample :
  (cleanup_expired_messages (cleanup_expired_messages Samples.db1 500).1 9500).1
  = (cleanup_expired_messages Samples.db1 9500).1 /\
  (cleanup_expired_messages Samples.db1 500).2
  + (cleanup_expired_messages (cleanup_expired_messages Samples.db1 500).1 9500).2
  = (cleanup_expired_messages Samples.db1 9500).2 /\
  (cleanup_expired_messages Samples.db1 9500).2 = 2.
Proof.
  destruct (cleanup_expired_messages_compose Samples.db1 500 9500) as [H1 H2];
    [lia |].
  split; [exact H1 |]. split; [exact H2 | reflexivity].
Defined.

(** **** The table's guarantees are kept *)

Lemma consistent_touch db now (uid : uuid) :
  consistent db -> consistent (update_user_last_active_v2 db now uid).
Proof.
  intros Hdb i m Hm. destruct (Hdb i m Hm) as (Hchk & [u Hu] & Hgrp).
  split; [done |]. split; [| done]. simpl.
  destruct (decide (user_id m = uid)) as [<- | Hne].
  - rewrite lookup_alter_eq, Hu. eauto.
  - rewrite lookup_alter_ne by done. eauto.
Qed.

(** The append, the pin toggle, the sweep and the retention update each
    take a table whose rows pass the constraints and reference existing
    users and groups to another such table. *)
Theorem consistent_preserved db :
  consistent db ->
  (forall now (new_id uid : uuid) (text mt : string) (gid : option uuid)
          (custom : option Z) db' (mid : uuid),
     send_message_v2_guest db now new_id uid text mt gid custom = Ok (db', mid) ->
     consistent db') /\
  (forall (mid op : uuid) db' (r : option bool),
     toggle_message_pin db mid op = Ok (db', r) -> consistent db') /\
  (forall now, consistent (cleanup_expired_messages db now).1) /\
  (forall (auth_uid : option uuid) (client_now : timestamp) (h : Z)
          (operatorUserId : uuid),
     consistent (Hybrid.updateMessageRetentionHours db auth_uid client_now h
                   operatorUserId).1).
Proof.
  intros Hdb. split; [| split; [| split]].
  - intros now new_id uid text mt gid custom db' mid
      (user_data & h & Hu & Hh & -> & Hfresh & Hchk & Hgrp & ->)
        %send_message_v2_guest_Ok.
    do 2 apply consistent_touch.
    intros i m. simpl. destruct (decide (i = new_id)) as [-> | Hne].
    + rewrite lookup_insert_eq. intros [= <-]. simpl. eauto.
    + rewrite lookup_insert_ne by done. apply Hdb.
  - intros mid op db' r. unfold toggle_message_pin.
    destruct (holds _); [discriminate |].
    destruct (messages_v2 db !! mid) as [m|] eqn:Hm; [| discriminate].
    intros H. apply bind_Ok in H as ([] & Hchk & H). result_simpl.
    injection H as <- <-.
    intros i m'. simpl. destruct (decide (i = mid)) as [-> | Hne].
    + rewrite lookup_insert_eq. intros [= <-].
      destruct (Hdb mid m Hm) as (_ & Hu & Hgrp). done.
    + rewrite lookup_insert_ne by done. apply Hdb.
  - intros now i m [Hm _]%cleanup_lookup. by apply (Hdb i m).
  - intros auth_uid client_now h operatorUserId.
    unfold Hybrid.updateMessageRetentionHours.
    destruct (Hybrid.update_setting _ _ _ _ _ _) as [db'|e] eqn:E; [| done].
    unfold Hybrid.update_setting in E.
    destruct (app_settings db !! retention_key);
      [destruct (Hybrid.may_modify_settings db auth_uid) |].
    + apply bind_Ok in E as ([] & _ & E). result_simpl. by injection E as <-.
    + result_simpl. by injection E as <-.
    + result_simpl. by injection E as <-.
Qed.

Lemma consistent_sample : consistent Samples.db1.
Proof.
  intros i m Hm. unfold Samples.db1 in Hm. simpl in Hm.
  repeat (apply lookup_insert_Some in Hm as [[_ <-] | [_ Hm]];
          [split; [reflexivity |]; split; [by eexists | discriminate] |]).
  rewrite lookup_empty in Hm. discriminate.
Qed.

Lemma consistent_preserved_sample :
  consistent Samples.db1 /\
  consistent (cleanup_expired_messages Samples.db1 500).1.
Proof.
  split; [exact consistent_sample |].
  apply (consistent_preserved Samples.db1 consistent_sample).
Defined.

End StoreBehaviour.

(** * Further properties of the hybrid service *)

Section HybridBehaviour.
Import Store Hybrid.

Implicit Types (db : database) (now : timestamp).

(** **** Writing the retention and reading it back *)









(** Without an operator's session the update changes nothing, and the
    method still resolves to true. *)
Theorem updateMessageRetentionHours_without_operator db
    (auth_uid : option uuid) (client_now : timestamp) (h : Z)
    (operatorUserId : uuid) :
  may_modify_settings db auth_uid = false ->
  updateMessageRetentionHours db auth_uid client_now h operatorUserId
  = (db, true).
Proof.
  intros Hno. unfold updateMessageRetentionHours, update_setting.
  rewrite Hno. by destruct (app_settings db !! retention_key).
Qed.

Lemma updateMessageRetentionHours_without_operator_sample :
  may_modify_settings Samples.db1 (Some 2%N) = false /\
  updateMessageRetentionHours Samples.db1 (Some 2%N) 5000 72 1%N
  = (Samples.db1, true).
Proof.
  split; [reflexivity |].
  apply (updateMessageRetentionHours_without_operator Samples.db1 (Some 2%N)
           5000 72 1%N).
  reflexivity.
Defined.

(** A stored retention of zero hours makes direct messages expire as they
    are created, while [getMessageRetentionHours] reports 24. *)
Theorem getMessageRetentionHours_zero db (row : setting_row) :
  app_settings db !! retention_key = Some row ->
  text_to_integer (setting_value row) = Ok 0 ->
  getMessageRetentionHours db = 24 /\
  forall now, calculate_message_ttl db now "direct" None None = Ok now.
Proof.
  intros Hrow Hzero.
  unfold getMessageRetentionHours, get_message_retention_hours,
    calculate_message_ttl, resolve_retention_hours, setting_retention_hours.
  rewrite Hrow. simpl. rewrite Hzero. simpl. split; [done |].
  intros now. unfold hours. f_equal. lia.
Qed.

Lemma getMessageRetentionHours_zero_sample :
  getMessageRetentionHours
    (with_settings Samples.db0
       (<[retention_key := SettingRow "0" None None 0]> ∅)) = 24 /\
  forall now,
    calculate_message_ttl
      (with_settings Samples.db0
         (<[retention_key := SettingRow "0" None None 0]> ∅))
      now "direct" None None = Ok now.
Proof.
  apply (getMessageRetentionHours_zero _ (SettingRow "0" None None 0));
    reflexivity.
Defined.

(** **** Sending through the service *)

(** Once the rpc has stored the message, [sendMessage] resolves to it (and
    broadcasts it, when subscribed) exactly when the fetch comes before the
    message's expiry; from the expiry on the read policy hides the row, the
    method throws, nothing is broadcast, and the message stays stored. A
    retention of zero hours or less therefore always ends in the throw. *)
Theorem sendMessage_after_store db (now now_fetch : timestamp) (new_id : uuid)
    (text context : string) (groupId : option uuid) (user : uuid)
    (custom : option Z) (subscribed : bool) db' (mid : uuid) (h : Z) :
  send_message_v2_guest db now new_id user text context groupId custom
  = Ok (db', mid) ->
  resolve_retention_hours db context groupId custom = Ok h ->
  sr_database (sendMessage db now now_fetch new_id text context groupId user
                 custom subscribed) = db' /\
  is_Some (messages_v2 db' !! new_id) /\
  (now_fetch < now + hours h ->
   exists realtimeMessage,
     sr_outcome (sendMessage db now now_fetch new_id text context groupId user
                   custom subscribed) = inr realtimeMessage /\
     sr_broadcast (sendMessage db now now_fetch new_id text context groupId
                     user custom subscribed)
     = (if subscribed then Some realtimeMessage else None) /\
     rm_id realtimeMessage = new_id /\
     rm_content realtimeMessage = text /\
     rm_created_at realtimeMessage = now /\
     rm_expires_at realtimeMessage = now + hours h) /\
  (now + hours h <= now_fetch ->
   sr_outcome (sendMessage db now now_fetch new_id text context groupId user
                 custom subscribed) = inl FailedToFetch /\
   sr_broadcast (sendMessage db now now_fetch new_id text context groupId user
                   custom subscribed) = None) /\
  (h <= 0 -> now <= now_fetch ->
   sr_outcome (sendMessage db now now_fetch new_id text context groupId user
                 custom subscribed) = inl FailedToFetch).
Proof.
  intros Hsend Hh.
  assert (Hearly : now_fetch < now + hours h ->
            exists m, visible_messages db' now_fetch !! mid = Some m /\
                      mid = new_id /\ content m = text /\
                      created_at m = now /\ expires_at m = now + hours h).
  { intros Hlt.
    apply send_message_v2_guest_Ok in Hsend
      as (user_data & h' & Hu & Hh' & -> & _ & _ & _ & ->).
    assert (h' = h) as -> by congruence.
    eexists. split.
    - unfold visible_messages. apply map_lookup_filter_Some. simpl.
      rewrite lookup_insert_eq. split; [reflexivity | simpl; lia].
    - done. }
  assert (Hlate : now + hours h <= now_fetch ->
            visible_messages db' now_fetch !! mid = None).
  { intros Hge.
    apply send_message_v2_guest_Ok in Hsend
      as (user_data & h' & Hu & Hh' & -> & _ & _ & _ & ->).
    assert (h' = h) as -> by congruence.
    unfold visible_messages. apply map_lookup_filter_None. right.
    intros m. simpl. rewrite lookup_insert_eq. intros [= <-]. simpl. lia. }
  assert (Hstored : is_Some (messages_v2 db' !! new_id)).
  { apply send_message_v2_guest_Ok in Hsend
      as (user_data & h' & _ & _ & -> & _ & _ & _ & ->).
    simpl. rewrite lookup_insert_eq. eauto. }
  unfold sendMessage. rewrite Hsend.
  split; [by destruct (visible_messages db' now_fetch !! mid) |].
  split; [done |].
  split; [| split].
  - intros (m & -> & -> & Htext & Hcreated & Hexpires)%Hearly.
    eexists. simpl. do 3 (split; [done |]). done.
  - intros ->%Hlate. done.
  - intros Hh0 Hle. rewrite Hlate; [done |].
    pose proof (hours_pos h). unfold hours in *. lia.
Qed.

Lemma sendMessage_after_store_sample :
  match send_message_v2_guest Samples.db0 1000 5%N 2%N "hi" "group" (Some 7%N)
          None with
  | Ok (db', mid) =>
      sr_database (sendMessage Samples.db0 1000 1200 5%N "hi" "group"
                     (Some 7%N) 2%N None true) = db' /\
      sr_outcome (sendMessage Samples.db0 1000 1200 5%N "hi" "group"
                    (Some 7%N) 2%N None true) = inl FailedToFetch
  | Raise _ => False
  end.
Proof.
  destruct (send_message_v2_guest Samples.db0 1000 5%N 2%N "hi" "group"
              (Some 7%N) None) as [[db' mid]|e] eqn:E.
  - destruct (sendMessage_after_store Samples.db0 1000 1200 5%N "hi" "group"
                (Some 7%N) 2%N None true db' mid 0 E eq_refl)
      as (Hdb & _ & _ & _ & Hzero).
    split; [exact Hdb |]. apply Hzero; lia.
  - vm_compute in E. discriminate E.
Defined.

(** **** Channel names *)

(** The direct chat and the groups never share a channel, and two groups
    share one only if their ids are spelled the same. *)
Theorem getChannelName_inj (context1 context2 : string)
    (groupId1 groupId2 : option string) :
  getChannelName context1 groupId1 = getChannelName context2 groupId2 ->
  (context1 = "direct" <-> context2 = "direct") /\
  (context1 <> "direct" -> default "null" groupId1 = default "null" groupId2).
Proof.
  unfold getChannelName.
  repeat case_bool_decide; simpl; intros Heq; try discriminate Heq.
  - done.
  - split; [done |]. intros _. by injection Heq.
Qed.

Lemma getChannelName_inj_sample :
  getChannelName "group" (Some "7f3a") = getChannelName "group" (Some "7f3a") /\
  (("group" : string) = "direct" <-> ("group" : string) = "direct") /\
  (("group" : string) <> "direct" ->
   default "null" (Some "7f3a") = default "null" (Some "7f3a")).
Proof.
  split; [reflexivity |].
  apply (getChannelName_inj "group" "group" (Some "7f3a") (Some "7f3a")).
  reflexivity.
Defined.

End HybridBehaviour.

(** * Further properties of the client's view *)

Section ViewBehaviour.
Import Client.
Local Open Scope list_scope.

Implicit Types (prev l : list RealtimeMessage) (message x y : RealtimeMessage).

Lemma has_id_perm (i : string) l l' : l ≡ₚ l' -> has_id i l = has_id i l'.
Proof.
  intros Hperm. destruct (has_id i l') eqn:Hl'.
  - apply has_id_true in Hl' as (m & Hin & Hid). apply has_id_true.
    exists m. by rewrite Hperm.
  - apply has_id_false. intros m Hin. rewrite has_id_false in Hl'.
    apply Hl'. by rewrite <- Hperm.
Qed.

Lemma has_id_snoc (i : string) l x :
  has_id i (l ++ [x]) = has_id i l || bool_decide (id x = i).
Proof. unfold has_id. rewrite existsb_app. simpl. by rewrite orb_false_r. Qed.

Lemma not_has_id_NoDup l x :
  has_id (id x) l = false -> NoDup (id <$> l) -> NoDup (id <$> (l ++ [x])).
Proof.
  intros Hnew Hl. rewrite fmap_app. apply NoDup_app. split; [done |].
  split; [| apply NoDup_singleton].
  intros i Hi ->%list_elem_of_singleton.
  apply list_elem_of_fmap in Hi as (m & Hid & Hm).
  rewrite has_id_false in Hnew. by apply (Hnew m).
Qed.

(** Under [handleNewMessage] a view never gets two entries of one id, a
    view in ascending order stays so, the message is in the view
    afterwards, and a second delivery of the same message changes nothing. *)
Theorem handleNewMessage_keeps_view prev message :
  (NoDup (id <$> prev) -> NoDup (id <$> handleNewMessage prev message)) /\
  (Sorted earlier prev -> Sorted earlier (handleNewMessage prev message)) /\
  has_id (id message) (handleNewMessage prev message) = true /\
  handleNewMessage (handleNewMessage prev message) message
  = handleNewMessage prev message.
Proof.
  assert (Hin : has_id (id message) (handleNewMessage prev message) = true).
  { unfold handleNewMessage.
    destruct (has_id (id message) prev) eqn:Hknown; [done |].
    rewrite (has_id_perm _ _ _ (sort_by_created_at_perm _)), has_id_snoc.
    rewrite bool_decide_eq_true_2 by done. apply orb_true_r. }
  split; [| split; [| split; [exact Hin |]]].
  - intros Hnodup. unfold handleNewMessage.
    destruct (has_id (id message) prev) eqn:Hknown; [done |].
    rewrite (sort_by_created_at_perm (prev ++ [message])).
    by apply not_has_id_NoDup.
  - intros Hsorted. unfold handleNewMessage.
    destruct (has_id (id message) prev); [done |].
    apply sort_by_created_at_sorted.
  - unfold handleNewMessage at 1. by rewrite Hin.
Qed.

Lemma handleNewMessage_keeps_view_sample :
  let view := [ViewSamples.entry "m-1" "a" 10; ViewSamples.entry "m-2" "b" 30] in
  let late := ViewSamples.entry "m-3" "c" 20 in
  NoDup (id <$> view) /\ Sorted earlier view /\
  NoDup (id <$> handleNewMessage view late) /\
  Sorted earlier (handleNewMessage view late).
Proof.
  intros view late.
  assert (Hnodup : NoDup (id <$> view)).
  { simpl. apply NoDup_cons. split.
    - intros Hin. apply list_elem_of_singleton in Hin. discriminate Hin.
    - apply NoDup_singleton. }
  assert (Hsorted : Sorted earlier view).
  { repeat constructor. unfold earlier. simpl. lia. }
  destruct (handleNewMessage_keeps_view view late) as (H1 & H2 & _).
  split; [exact Hnodup |]. split; [exact Hsorted |].
  split; [exact (H1 Hnodup) | exact (H2 Hsorted)].
Defined.

(** **** Arrival order *)

Lemma Sorted_earlier_head x l y :
  Sorted earlier (x :: l) -> y ∈ x :: l -> earlier x y.
Proof.
  intros Hsorted Hy.
  apply Sorted_StronglySorted in Hsorted;
    [| intros a b c; unfold earlier; lia].
  apply StronglySorted_inv in Hsorted as [_ Hall].
  apply elem_of_cons in Hy as [-> | Hy]; [unfold earlier; lia |].
  by eapply Forall_forall in Hall.
Qed.

Lemma same_time_same_entry l x y :
  NoDup (created_at <$> l) -> x ∈ l -> y ∈ l ->
  created_at x = created_at y -> x = y.
Proof.
  induction l as [|z l IH]; [by intros _ ?%elem_of_nil |].
  rewrite fmap_cons, NoDup_cons. intros [Hz Hl] Hx Hy Heq.
  apply elem_of_cons in Hx as [-> | Hx];
    apply elem_of_cons in Hy as [-> | Hy]; [done | | | by apply IH].
  - destruct Hz. rewrite Heq. by apply list_elem_of_fmap_2.
  - destruct Hz. rewrite <- Heq. by apply list_elem_of_fmap_2.
Qed.

(** Two ascending lists with the same entries, no two of them created at
    the same time, are the same list. *)
Lemma sorted_view_unique l l' :
  Sorted earlier l -> Sorted earlier l' -> l ≡ₚ l' ->
  NoDup (created_at <$> l) -> l = l'.
Proof.
  revert l'. induction l as [|x l IH]; intros l' Hl Hl' Hperm Hnodup.
  { by apply Permutation_nil_l in Hperm. }
  destruct l' as [|y l']; [by apply Permutation_nil_r in Hperm |].
  assert (x = y) as <-.
  { apply (same_time_same_entry (x :: l)); [done | left | |].
    - rewrite Hperm. left.
    - assert (earlier x y).
      { apply (Sorted_earlier_head x l); [done |]. rewrite Hperm. left. }
      assert (earlier y x).
      { apply (Sorted_earlier_head y l'); [done |]. rewrite <- Hperm. left. }
      unfold earlier in *. lia. }
  f_equal. apply IH.
  - by apply Sorted_inv in Hl as [? _].
  - by apply Sorted_inv in Hl' as [? _].
  - by apply Permutation_cons_inv in Hperm.
  - rewrite fmap_cons in Hnodup. by apply NoDup_cons in Hnodup as [_ ?].
Qed.

(** Two new messages reach the same view in whichever order they arrive,
    as long as no two entries were created at the same time. *)
Theorem handleNewMessage_order_independent prev x y :
  has_id (id x) prev = false ->
  has_id (id y) prev = false ->
  id x <> id y ->
  NoDup (created_at <$> (prev ++ [x; y])) ->
  handleNewMessage (handleNewMessage prev x) y
  = handleNewMessage (handleNewMessage prev y) x.
Proof.
  intros Hx Hy Hxy Hnodup.
  assert (Hfirst : forall a b, has_id (id a) prev = false ->
            has_id (id b) prev = false -> id a <> id b ->
            handleNewMessage (handleNewMessage prev a) b
            = sort_by_created_at (sort_by_created_at (prev ++ [a]) ++ [b])).
  { intros a b Ha Hb Hab. unfold handleNewMessage. rewrite Ha.
    rewrite (has_id_perm _ _ _ (sort_by_created_at_perm _)), has_id_snoc, Hb.
    by rewrite bool_decide_eq_false_2. }
  rewrite (Hfirst x y), (Hfirst y x) by done.
  apply sorted_view_unique; try apply sort_by_created_at_sorted.
  - rewrite !sort_by_created_at_perm.
    rewrite <- !(assoc_L (++)). simpl.
    apply Permutation_app_head, Permutation_swap.
  - rewrite !sort_by_created_at_perm. by rewrite <- (assoc_L (++)).
Qed.

Lemma handleNewMessage_order_independent_sample :
  let view := [ViewSamples.entry "m-1" "a" 10] in
  let x := ViewSamples.entry "m-2" "b" 30 in
  let y := ViewSamples.entry "m-3" "c" 20 in
  handleNewMessage (handleNewMessage view x) y
  = handleNewMessage (handleNewMessage view y) x /\
  id <$> handleNewMessage (handleNewMessage view x) y = ["m-1"; "m-3"; "m-2"].
Proof.
  intros view x y. split; [| reflexivity].
  apply (handleNewMessage_order_independent view x y);
    [reflexivity | reflexivity | discriminate |].
  simpl. repeat (apply NoDup_cons; split);
    [| | | apply NoDup_nil_2];
    rewrite ?elem_of_cons, ?elem_of_nil; intros H; repeat destruct H as [H|H];
    try discriminate H; done.
Defined.

(** **** The service's per-channel lists *)

Lemma insert_by_created_at_front x l :
  HdRel earlier x l -> insert_by_created_at x l = x :: l.
Proof.
  destruct l as [|y l]; [done |]. intros Hhd%HdRel_inv. simpl.
  by rewrite bool_decide_eq_true_2.
Qed.

(** Into an ascending list a new message goes after the entries that are
    not later than it, and nothing else moves. *)
Lemma sort_by_created_at_snoc l x :
  Sorted earlier l ->
  exists l1 l2, l = l1 ++ l2 /\ sort_by_created_at (l ++ [x]) = l1 ++ x :: l2.
Proof.
  induction 1 as [|y l Hl IH Hhd]; [by exists [], [] |].
  destruct IH as (l1 & l2 & -> & Hsort). simpl. rewrite Hsort.
  destruct l1 as [|z l1]; simpl in *.
  - case_bool_decide as Hyx.
    + by exists [y], l2.
    + exists [], (y :: l2). by rewrite insert_by_created_at_front.
  - apply HdRel_inv in Hhd. rewrite bool_decide_eq_true_2 by done.
    by exists (y :: z :: l1), l2.
Qed.

Lemma list_find_id_middle (i : string) (l1 l2 : list RealtimeMessage) x :
  has_id i l1 = false -> id x = i ->
  list_find (fun m => id m = i) (l1 ++ x :: l2) = Some (List.length l1, x).
Proof.
  intros Hl1 Hx. apply list_find_Some. split; [| split; [done |]].
  - by rewrite lookup_app_r, Nat.sub_diag.
  - intros j m Hj Hlt. rewrite lookup_app_l in Hj by done.
    rewrite has_id_false in Hl1. apply Hl1.
    by eapply list_elem_of_lookup_2.
Qed.

(** In a channel whose list is in ascending order, deleting a message that
    was just added as new gives back the lists as they were. *)
Theorem addMessage_deleteMessage (channels : gmap string (list RealtimeMessage))
    (hasHandler : bool) (channelName : string) l message :
  channels !! channelName = Some l ->
  Sorted earlier l ->
  has_id (id message) l = false ->
  (deleteMessage (addMessage channels channelName message) hasHandler
     channelName (id message)).1 = channels /\
  getMessages (addMessage channels channelName message) channelName
  ≡ₚ message :: l.
Proof.
  intros Hl Hsorted Hnew.
  assert (Hadd : addMessage channels channelName message
                 = <[channelName := sort_by_created_at (l ++ [message])]>
                     channels).
  { rewrite addMessage_new; rewrite Hl; done. }
  rewrite Hadd. split.
  - destruct (sort_by_created_at_snoc l message Hsorted)
      as (l1 & l2 & -> & ->).
    unfold deleteMessage. rewrite lookup_insert_eq.
    rewrite (list_find_id_middle (id message) l1 l2 message); [| | done].
    + simpl. rewrite insert_insert_eq.
      replace (delete (List.length l1) (l1 ++ message :: l2)) with (l1 ++ l2).
      * by apply insert_id.
      * clear. induction l1 as [|z l1 IH]; [done |]. simpl. by f_equal.
    + rewrite has_id_false in *. intros m Hm. apply Hnew.
      apply elem_of_app. by left.
  - unfold getMessages. rewrite lookup_insert_eq. simpl.
    rewrite sort_by_created_at_perm. by rewrite Permutation_app_comm.
Qed.

Lemma addMessage_deleteMessage_sample :
  let l := [ViewSamples.entry "m-1" "a" 10; ViewSamples.entry "m-2" "b" 30] in
  let channels : gmap string (list RealtimeMessage) := {["direct_chat" := l]} in
  let late := ViewSamples.entry "m-3" "c" 20 in
  (deleteMessage (addMessage channels "direct_chat" late) true "direct_chat"
     (id late)).1 = channels /\
  getMessages (addMessage channels "direct_chat" late) "direct_chat"
  ≡ₚ late :: l.
Proof.
  intros l channels late.
  apply (addMessage_deleteMessage channels true "direct_chat" l late).
  - reflexivity.
  - repeat constructor. unfold earlier. simpl. lia.
  - reflexivity.
Defined.

(** **** Where a new message goes *)

Lemma sort_by_created_at_snoc_bounds l x :
  Sorted earlier l ->
  exists l1 l2,
    l = l1 ++ l2 /\ sort_by_created_at (l ++ [x]) = l1 ++ x :: l2 /\
    Forall (fun z => created_at z <= created_at x) l1 /\
    Forall (fun z => created_at x < created_at z) l2.
Proof.
  induction 1 as [|y l Hl IH Hhd]; [by exists [], [] |].
  destruct IH as (l1 & l2 & -> & Hsort & Hl1 & Hl2). simpl. rewrite Hsort.
  destruct l1 as [|z l1]; simpl in *.
  - case_bool_decide as Hyx.
    + exists [y], l2. repeat split; [by constructor | done].
    + exists [], (y :: l2). rewrite insert_by_created_at_front by done.
      repeat split; [done |]. constructor; [lia | done].
  - apply HdRel_inv in Hhd. rewrite bool_decide_eq_true_2 by done.
    exists (y :: z :: l1), l2. repeat split; [| done].
    constructor; [| done]. apply Forall_cons in Hl1 as [Hz _].
    unfold earlier in Hhd. lia.
Qed.

(** In a view in ascending order a new message is put after the entries
    created no later than it and before the later ones; the entries already
    shown keep their order. *)
Theorem handleNewMessage_inserts_in_place prev message :
  Sorted earlier prev ->
  has_id (id message) prev = false ->
  exists before after,
    prev = before ++ after /\
    handleNewMessage prev message = before ++ message :: after /\
    Forall (fun z => created_at z <= created_at message) before /\
    Forall (fun z => created_at message < created_at z) after.
Proof.
  intros Hsorted Hnew. unfold handleNewMessage. rewrite Hnew.
  by apply sort_by_created_at_snoc_bounds.
Qed.

Lemma handleNewMessage_inserts_in_place_sample :
  let a := ViewSamples.entry "m-1" "a" 10 in
  let b := ViewSamples.entry "m-2" "b" 30 in
  let late := ViewSamples.entry "m-3" "c" 20 in
  exists before after,
    [a; b] = before ++ after /\
    handleNewMessage [a; b] late = before ++ late :: after /\
    Forall (fun z => created_at z <= created_at late) before /\
    Forall (fun z => created_at late < created_at z) after.
Proof.
  intros a b late.
  apply (handleNewMessage_inserts_in_place [a; b] late).
  - repeat constructor. unfold earlier. simpl. lia.
  - reflexivity.
Defined.

(** **** Deleting from [DirectChat]'s view *)

(** A DELETE event leaves no entry of the deleted id, keeps every other
    entry, changes nothing when the id is not shown, and undoes the
    arrival of a message whose id was new. *)
Theorem DirectChat_onDelete_removes prev message :
  has_id (id message) (DirectChat_onDelete prev message) = false /\
  (forall m, m ∈ DirectChat_onDelete prev message
             <-> m ∈ prev /\ id m <> id message) /\
  (has_id (id message) prev = false ->
   DirectChat_onDelete prev message = prev /\
   DirectChat_onDelete (DirectChat_onInsert prev message) message = prev).
Proof.
  unfold DirectChat_onDelete. split; [| split].
  - apply has_id_false. intros m Hm.
    by apply list_elem_of_filter in Hm as [? _].
  - intros m. rewrite list_elem_of_filter. tauto.
  - intros Hnew.
    assert (Hsame : filter (fun msg => id msg <> id message) prev = prev).
    { rewrite has_id_false in Hnew. clear -Hnew.
      induction prev as [|z prev IH]; [done |].
      rewrite filter_cons_True by (apply Hnew; left).
      f_equal. apply IH. intros m Hm. apply Hnew. by right. }
    split; [exact Hsame |].
    unfold DirectChat_onInsert. rewrite Hnew. simpl.
    rewrite filter_app, Hsame, filter_cons_False by (simpl; tauto).
    rewrite filter_nil. apply app_nil_r.
Qed.

(** **** Who is online *)

Lemma user_known_true (prev : list User) (i : string) :
  existsb (fun u => bool_decide (u_id u = i)) prev = true
  <-> i ∈ u_id <$> prev.
Proof.
  rewrite existsb_exists, list_elem_of_fmap. split.
  - intros (u & Hin%list_elem_of_In & Hid%bool_decide_eq_true). eauto.
  - intros (u & -> & Hin). exists u. split; [by apply list_elem_of_In |].
    by apply bool_decide_eq_true.
Qed.

(** The list of online users never holds an id twice; a user who joins is
    on it, a user who leaves is off it, and one who joins anew and leaves
    again leaves the list as it was. *)
Theorem online_users_distinct (prev : list User) (u : User) :
  NoDup (u_id <$> prev) ->
  NoDup (u_id <$> handleUserJoin prev u) /\
  NoDup (u_id <$> handleUserLeave prev u) /\
  (u_id u ∈ u_id <$> handleUserJoin prev u) /\
  (u_id u ∉ u_id <$> handleUserLeave prev u) /\
  (u_id u ∉ u_id <$> prev ->
   handleUserLeave (handleUserJoin prev u) u = prev).
Proof.
  intros Hnodup.
  assert (Hleave : forall l : list User,
            u_id u ∉ u_id <$> l -> filter (fun v => u_id v <> u_id u) l = l).
  { induction l as [|z l IH]; [done |]. rewrite fmap_cons, not_elem_of_cons.
    intros [Hz Hl]. rewrite filter_cons_True by done. f_equal. by apply IH. }
  unfold handleUserJoin, handleUserLeave.
  destruct (existsb _ prev) eqn:Hknown.
  - apply user_known_true in Hknown.
    split; [done |]. split; [| split; [done |]; split].
    + apply (NoDup_fmap_2_strong u_id).
      * intros x y Hx%list_elem_of_filter Hy%list_elem_of_filter Hxy.
        destruct Hx as [_ Hx], Hy as [_ Hy].
        apply list_elem_of_lookup in Hx as [i Hi], Hy as [j Hj].
        assert (i = j) as ->; [| congruence].
        eapply NoDup_lookup; [exact Hnodup | |];
          rewrite list_lookup_fmap; [by rewrite Hi | by rewrite Hj, Hxy].
      * apply NoDup_filter. by apply NoDup_fmap_1 in Hnodup.
    + intros (v & Hid & Hv%list_elem_of_filter)%list_elem_of_fmap.
      by destruct Hv as [Hne _].
    + intros Hnot. contradiction.
  - assert (Hnew : u_id u ∉ u_id <$> prev).
    { rewrite <- user_known_true. by rewrite Hknown. }
    split; [| split; [| split; [| split]]].
    + rewrite fmap_app. apply NoDup_app. split; [done |].
      split; [| apply NoDup_singleton].
      by intros i Hi ->%list_elem_of_singleton.
    + by rewrite Hleave.
    + rewrite fmap_app. apply elem_of_app. right. by left.
    + by rewrite Hleave.
    + intros _. rewrite filter_app, Hleave by done.
      rewrite filter_cons_False by (simpl; tauto).
      rewrite filter_nil. apply app_nil_r.
Qed.

Lemma online_users_distinct_sample :
  NoDup (u_id <$> [ViewSamples.fox]) /\
  NoDup (u_id <$> handleUserJoin [ViewSamples.fox] ViewSamples.fox) /\
  handleUserJoin [ViewSamples.fox] ViewSamples.fox = [ViewSamples.fox].
Proof.
  assert (Hnodup : NoDup (u_id <$> [ViewSamples.fox]))
    by apply NoDup_singleton.
  split; [exact Hnodup |].
  split; [| reflexivity].
  apply (online_users_distinct [ViewSamples.fox] ViewSamples.fox Hnodup).
Defined.

End ViewBehaviour.

(** * Further properties of [DirectChat] *)

Section CountdownFacts.
Import Client Client.CountdownTimer.


End CountdownFacts.

Section SendAndEcho.
Import Client.
Local Open Scope list_scope.

Variable trim : string -> string.

Implicit Types (st : chat_state) (stored : RealtimeMessage).

Lemma fmap_replace_absent (i : string) (l : list RealtimeMessage) stored :
  has_id i l = false ->
  (fun m => if bool_decide (id m = i) then stored else m) <$> l = l.
Proof.
  rewrite has_id_false. intros Hl.
  induction l as [|z l IH]; [done |]. simpl.
  rewrite bool_decide_eq_false_2 by (apply Hl; left).
  f_equal. apply IH. intros m Hm. apply Hl. by right.
Qed.

Lemma onInsert_known_same (l : list RealtimeMessage) stored :
  (forall m, m ∈ l -> is_temp_for stored m = false) ->
  (forall m, m ∈ l -> id m = id stored -> m = stored) ->
  (fun msg =>
     if is_temp_for stored msg then stored
     else if bool_decide (id msg = id stored) then stored else msg) <$> l = l.
Proof.
  induction l as [|z l IH]; intros Htemp Hsame; [done |].
  rewrite fmap_cons. rewrite IH.
  - rewrite (Htemp z) by left.
    case_bool_decide as Hz; [| done].
    f_equal. symmetry. apply Hsame; [left | done].
  - intros m Hm. apply Htemp. by right.
  - intros m Hm. apply Hsame. by right.
Qed.

(** A send that succeeds puts the stored message where the optimistic entry
    stood, at the end of the view; the echo of the change feed that comes
    after it changes nothing, so the message is shown once. If the echo
    comes first, between the optimistic entry and the answer, the message
    ends up in the view twice. *)
Theorem sendMessage_and_echo st (u : User) (tempSuffix : string) (now : Z)
    stored :
  trim (newMessage st) <> "" ->
  sending st = false ->
  has_id ("temp-" +:+ tempSuffix) (messages st) = false ->
  has_id (id stored) (messages st) = false ->
  String.prefix "temp-" (id stored) = false ->
  (forall m, m ∈ messages st -> is_temp_for stored m = false) ->
  messages (sendMessage trim st (Some u) tempSuffix now (Stored (Some stored)))
  = messages st ++ [stored] /\
  DirectChat_onInsert
    (messages (sendMessage trim st (Some u) tempSuffix now
                 (Stored (Some stored)))) stored
  = messages st ++ [stored] /\
  messages
    (sendMessage_settle
       {| messages :=
            DirectChat_onInsert
              (messages (sendMessage_begin trim st ("temp-" +:+ tempSuffix) u now))
              stored;
          newMessage := "";
          sending := true |}
       ("temp-" +:+ tempSuffix) (trim (newMessage st)) (Stored (Some stored)))
  = messages st ++ [stored; stored].
Proof.
  intros Htext Hidle Htemp Hnew Hreal Hpending.
  assert (Hne : id stored <> "temp-" +:+ tempSuffix).
  { intros Heq. rewrite Heq in Hreal.
    destruct tempSuffix; cbv in Hreal; discriminate Hreal. }
  assert (Hsent :
    messages (sendMessage trim st (Some u) tempSuffix now (Stored (Some stored)))
    = messages st ++ [stored]).
  { unfold sendMessage. rewrite bool_decide_eq_false_2 by done.
    rewrite Hidle. simpl. rewrite fmap_app, fmap_replace_absent by done.
    simpl. by rewrite bool_decide_eq_true_2. }
  split; [exact Hsent |]. split.
  - rewrite Hsent. unfold DirectChat_onInsert.
    rewrite has_id_snoc, bool_decide_eq_true_2, orb_true_r by done. simpl.
    apply onInsert_known_same.
    + intros m [Hm | ->%list_elem_of_singleton]%elem_of_app; [by apply Hpending |].
      unfold is_temp_for. by rewrite Hreal.
    + intros m [Hm | ->%list_elem_of_singleton]%elem_of_app; [| done].
      intros Hid. rewrite has_id_false in Hnew. by destruct (Hnew m Hm).
  - simpl. unfold DirectChat_onInsert.
    rewrite has_id_snoc, Hnew. simpl.
    rewrite bool_decide_eq_false_2 by done. simpl.
    rewrite !fmap_app, fmap_replace_absent by done. simpl.
    rewrite bool_decide_eq_true_2 by done.
    rewrite bool_decide_eq_false_2 by done.
    by rewrite <- (assoc_L (++)).
Qed.

End SendAndEcho.

Lemma sendMessage_and_echo_sample :
  let st := Client.ChatState [ViewSamples.entry "m-1" "hello" 10]
              "are you there" false in
  let stored := ViewSamples.entry "m-2" "are you there" 21 in
  Client.messages
    (Client.sendMessage ViewSamples.keep_text st (Some ViewSamples.fox)
       "1700000000000-0.42" 20 (Client.Stored (Some stored)))
  = [ViewSamples.entry "m-1" "hello" 10; stored] /\
  Client.DirectChat_onInsert
    (Client.messages
       (Client.sendMessage ViewSamples.keep_text st (Some ViewSamples.fox)
          "1700000000000-0.42" 20 (Client.Stored (Some stored)))) stored
  = [ViewSamples.entry "m-1" "hello" 10; stored] /\
  Client.messages
    (Client.sendMessage_settle
       {| Client.messages :=
            Client.DirectChat_onInsert
              (Client.messages
                 (Client.sendMessage_begin ViewSamples.keep_text st
                    "temp-1700000000000-0.42" ViewSamples.fox 20))
              stored;
          Client.newMessage := "";
          Client.sending := true |}
       "temp-1700000000000-0.42" "are you there"
       (Client.Stored (Some stored)))
  = [ViewSamples.entry "m-1" "hello" 10; stored; stored].
Proof.
  intros st stored.
  apply (sendMessage_and_echo ViewSamples.keep_text st ViewSamples.fox
           "1700000000000-0.42" 20 stored);
    [discriminate | reflexivity | reflexivity | reflexivity | reflexivity |].
  intros m Hm. apply list_elem_of_singleton in Hm as ->. reflexivity.
Defined.

Section ResyncAgain.
Import Client.

Variable isMessageExpired : Z -> bool.

(** A resync that is run again on the same answer changes nothing more;
    and a view that a resync has replaced holds no entry that counts as
    expired. *)
Theorem DirectChat_syncInterval_idempotent (prev data : list RealtimeMessage) :
  DirectChat_syncInterval isMessageExpired
    (DirectChat_syncInterval isMessageExpired prev (Some data)) (Some data)
  = DirectChat_syncInterval isMessageExpired prev (Some data) /\
  (DirectChat_syncInterval isMessageExpired prev (Some data) <> prev ->
   forall m, m ∈ DirectChat_syncInterval isMessageExpired prev (Some data) ->
             isMessageExpired (expires_at m) = false /\ m ∈ data).
Proof.
  unfold DirectChat_syncInterval.
  set (valid := filter (fun m => isMessageExpired (expires_at m) = false) data).
  set (found := bool_decide
                  (0 < List.length
                         (filter (fun dbMsg => has_id (id dbMsg) prev = false)
                                 valid))%nat).
  destruct found eqn:Hfound.
  - split; [by case_bool_decide |].
    intros _ m Hm. subst valid. by apply list_elem_of_filter in Hm.
  - split; [| done]. subst found. by rewrite Hfound.
Qed.

End ResyncAgain.
